(** * qutebrowser: test helpers ([tests/helpers/testutils.py]) and the
      freeze script ([scripts/freeze.py])

    A shallow embedding of [pattern_match], [partial_compare] and its
    handlers, and of the [try]/[finally] block of the freeze script, with
    the properties the specification states about them; then of
    [print_i] and the trace of [partial_compare], of [change_cwd], of
    [disable_seccomp_bpf_sandbox] and of the freeze script from its first
    statement, with further properties read off the code.

    Conventions of the embedding.
    - A Python [str] is a [string]; its characters are the 256 values of
      [ascii].
    - A function that can raise returns an [option]: [None] stands for
      "no value returned" (an exception, or a construct outside the part of
      a library that is modelled here).
    - [print_i] only writes a diagnostic trace to stdout; the trace and the
      [indent] argument that shapes it are left out of [partial_compare]
      and modelled in [partial_compare_io], which returns the same
      outcomes. *)

From Stdlib Require Import ZArith Ascii String Floats.SpecFloat.
From stdpp Require Import base tactics option list strings pretty gmap.

(** ** Python's [str] methods used by the helpers *)

(** [s.split(sep)] for a one-character separator. *)
Fixpoint str_split (sep : ascii) (s : string) : list string :=
  match s with
  | EmptyString => [EmptyString]
  | String c s' =>
      if Ascii.eqb c sep then EmptyString :: str_split sep s'
      else match str_split sep s' with
           | [] => [String c EmptyString]
           | part :: parts => String c part :: parts
           end
  end.

(** [sep.join(parts)]. *)
Fixpoint str_join (sep : string) (parts : list string) : string :=
  match parts with
  | [] => EmptyString
  | [part] => part
  | part :: parts' => part +:+ sep +:+ str_join sep parts'
  end.

(** ** The part of Python's [re] module that [pattern_match] drives *)

Module Re.

(** [re._special_chars_map]: the characters [re.escape] puts a backslash
    before, [()[]{}?*+-|^$\.&~# \t\n\r\v\f]. *)
Definition special_chars : list ascii :=
  ["("; ")"; "["; "]"; "{"; "}"; "?"; "*"; "+"; "-"; "|"; "^"; "$";
   "\"; "."; "&"; "~"; "#"; " "; "009"; "010"; "013"; "011"; "012"]%char.

Definition is_special (c : ascii) : bool :=
  existsb (Ascii.eqb c) special_chars.

(** [re.escape(pattern)]. *)
Fixpoint escape (pattern : string) : string :=
  match pattern with
  | EmptyString => EmptyString
  | String c rest =>
      if is_special c then String "\" (String c (escape rest))
      else String c (escape rest)
  end.

(** What a parsed pattern is made of: one character position ([LITERAL]
    or [ANY]), taken once or under a greedy [*] ([MAX_REPEAT 0 ∞]). *)
Inductive atom : Type :=
| Literal (c : ascii)
| AnyChar.

Inductive node : Type :=
| Once (a : atom)
| MaxRepeat (a : atom).

(** The parser's [SPECIAL_CHARS] and [REPEAT_CHARS]: what is not a
    literal when it stands unescaped. *)
Definition is_metachar (c : ascii) : bool :=
  existsb (Ascii.eqb c)
    ["."; "\"; "["; "{"; "("; ")"; "*"; "+"; "?"; "^"; "$"; "|"]%char.

Definition is_alnum (c : ascii) : bool :=
  let n := nat_of_ascii c in
  (((48 <=? n) && (n <=? 57)) || ((65 <=? n) && (n <=? 90))
   || ((97 <=? n) && (n <=? 122)))%nat.

(** [re.compile] on the patterns built from literals, backslash escapes of
    non-alphanumeric characters, [.] and [*]. Everything else of the
    pattern language (groups, classes, alternation, other repeats, class
    escapes) is outside the model: [None]. *)
Fixpoint compile (pattern : string) : option (list node) :=
  match pattern with
  | EmptyString => Some []
  | String "\" EmptyString => None
  | String "\" (String c rest) =>
      if is_alnum c then None
      else match rest with
           | String "*" rest' => cons (MaxRepeat (Literal c)) <$> compile rest'
           | _ => cons (Once (Literal c)) <$> compile rest
           end
  | String "." rest =>
      match rest with
      | String "*" rest' => cons (MaxRepeat AnyChar) <$> compile rest'
      | _ => cons (Once AnyChar) <$> compile rest
      end
  | String c rest =>
      if is_metachar c then None
      else match rest with
           | String "*" rest' => cons (MaxRepeat (Literal c)) <$> compile rest'
           | _ => cons (Once (Literal c)) <$> compile rest
           end
  end.

(** One character against one atom; without [DOTALL], [.] leaves the
    newline out. *)
Definition atom_matches (dotall : bool) (a : atom) (c : ascii) : bool :=
  match a with
  | Literal l => Ascii.eqb l c
  | AnyChar => dotall || negb (Ascii.eqb c "010")
  end.

(** The backtracking matcher, anchored at both ends: a greedy repeat first
    tries one more character and falls back to the rest of the pattern. *)
Fixpoint match_here (dotall : bool) (p : list node) : string -> bool :=
  match p with
  | [] => fun s => match s with EmptyString => true | _ => false end
  | Once a :: p' => fun s =>
      match s with
      | String c s' => atom_matches dotall a c && match_here dotall p' s'
      | EmptyString => false
      end
  | MaxRepeat a :: p' =>
      fix rep (s : string) : bool :=
        match s with
        | String c s' => atom_matches dotall a c && rep s'
        | EmptyString => false
        end || match_here dotall p' s
  end.

(** [re.fullmatch(pattern, string, flags) is not None]. *)
Definition fullmatch (pattern value : string) (dotall : bool) : option bool :=
  p ← compile pattern; Some (match_here dotall p value).

End Re.

(** ** [pattern_match] *)

(** [re_pattern = '.*'.join(re.escape(part) for part in pattern.split('*'))]. *)
Definition re_pattern_of (pattern : string) : string :=
  str_join ".*" (Re.escape <$> str_split "*" pattern).

(** [re.fullmatch(re_pattern, value, flags=re.DOTALL) is not None]. *)
Definition pattern_match (pattern value : string) : option bool :=
  Re.fullmatch (re_pattern_of pattern) value true.

(** The rule the specification gives for [pattern_match], in its own words:
    [*] matches any run of characters, every other character is literal, and
    the whole value has to be consumed. *)
Inductive glob_matches : string -> string -> Prop :=
| glob_empty : glob_matches "" ""
| glob_literal (c : ascii) (p v : string) :
    c <> "*"%char -> glob_matches p v ->
    glob_matches (String c p) (String c v)
| glob_star (p run v : string) :
    glob_matches p v -> glob_matches (String "*" p) (run +:+ v).

Definition has_star (pattern : string) : bool :=
  existsb (Ascii.eqb "*") (list_ascii_of_string pattern).

(** The parsed pattern that the text built by [pattern_match] stands for:
    [.*] for every [*], a literal for every other character. *)
Fixpoint nodes_of_glob (pattern : string) : list Re.node :=
  match pattern with
  | EmptyString => []
  | String c rest =>
      (if Ascii.eqb c "*" then Re.MaxRepeat Re.AnyChar
       else Re.Once (Re.Literal c)) :: nodes_of_glob rest
  end.


(** ** Python values *)

(** The builtin types of the values that are modelled. *)
Inductive builtin_type : Type :=
| T_NoneType | T_ellipsis | T_bool | T_int | T_float | T_str
| T_list | T_tuple | T_dict.

(** [type(v)]: a builtin type, or a subclass of one that inherits all of its
    methods ([class name(base): pass]). *)
Inductive pytype : Type :=
| Builtin (base : builtin_type)
| Subclass (name : string) (base : builtin_type).

#[global] Instance builtin_type_eq_dec : EqDecision builtin_type.
Proof. solve_decision. Defined.
#[global] Instance pytype_eq_dec : EqDecision pytype.
Proof. solve_decision. Defined.

(** A value carries its class where the builtin type can be subclassed:
    [cls = None] is the builtin type itself, [cls = Some name] the subclass
    [name]. A [float] is an IEEE 754 binary64 number. A [dict] keeps its
    items in insertion order; its keys are pairwise different. Values are
    finite trees: a container that contains itself is not modelled. *)
#[local] Unset Elimination Schemes.
Inductive pyval : Type :=
| VNone
| VEllipsis
| VBool (b : bool)
| VInt (cls : option string) (n : Z)
| VFloat (cls : option string) (x : spec_float)
| VStr (cls : option string) (s : string)
| VList (cls : option string) (items : list pyval)
| VTuple (cls : option string) (items : list pyval)
| VDict (cls : option string) (items : list (pyval * pyval)).
#[local] Set Elimination Schemes.

(** Induction on a value and on the values inside it. *)
Section PyvalInd.

Variable P : pyval -> Prop.
Hypothesis HNone : P VNone.
Hypothesis HEllipsis : P VEllipsis.
Hypothesis HBool : forall b, P (VBool b).
Hypothesis HInt : forall cls n, P (VInt cls n).
Hypothesis HFloat : forall cls x, P (VFloat cls x).
Hypothesis HStr : forall cls s, P (VStr cls s).
Hypothesis HList : forall cls items, Forall P items -> P (VList cls items).
Hypothesis HTuple : forall cls items, Forall P items -> P (VTuple cls items).
Hypothesis HDict : forall cls items,
  Forall (fun kv => P kv.1 /\ P kv.2) items -> P (VDict cls items).

Fixpoint pyval_ind (v : pyval) : P v :=
  match v with
  | VNone => HNone
  | VEllipsis => HEllipsis
  | VBool b => HBool b
  | VInt cls n => HInt cls n
  | VFloat cls x => HFloat cls x
  | VStr cls s => HStr cls s
  | VList cls items =>
      HList cls items
        ((fix all (l : list pyval) : Forall P l :=
            match l with
            | [] => @List.Forall_nil _ P
            | x :: l' => @List.Forall_cons _ P x l' (pyval_ind x) (all l')
            end) items)
  | VTuple cls items =>
      HTuple cls items
        ((fix all (l : list pyval) : Forall P l :=
            match l with
            | [] => @List.Forall_nil _ P
            | x :: l' => @List.Forall_cons _ P x l' (pyval_ind x) (all l')
            end) items)
  | VDict cls items =>
      HDict cls items
        ((fix all (l : list (pyval * pyval))
            : Forall (fun kv => P kv.1 /\ P kv.2) l :=
            match l with
            | [] => @List.Forall_nil _ _
            | (k, x) :: l' =>
                @List.Forall_cons _ (fun kv => P kv.1 /\ P kv.2) (k, x) l'
                  (conj (pyval_ind k) (pyval_ind x)) (all l')
            end) items)
  end.

End PyvalInd.

Definition class_of (base : builtin_type) (cls : option string) : pytype :=
  match cls with
  | None => Builtin base
  | Some name => Subclass name base
  end.

(** [type(v)]. *)
Definition type_of (v : pyval) : pytype :=
  match v with
  | VNone => Builtin T_NoneType
  | VEllipsis => Builtin T_ellipsis
  | VBool _ => Builtin T_bool
  | VInt cls _ => class_of T_int cls
  | VFloat cls _ => class_of T_float cls
  | VStr cls _ => class_of T_str cls
  | VList cls _ => class_of T_list cls
  | VTuple cls _ => class_of T_tuple cls
  | VDict cls _ => class_of T_dict cls
  end.

Definition builtin_name (t : builtin_type) : string :=
  match t with
  | T_NoneType => "NoneType"
  | T_ellipsis => "ellipsis"
  | T_bool => "bool"
  | T_int => "int"
  | T_float => "float"
  | T_str => "str"
  | T_list => "list"
  | T_tuple => "tuple"
  | T_dict => "dict"
  end.

(** [t.__name__]. *)
Definition type_name (t : pytype) : string :=
  match t with
  | Builtin base => builtin_name base
  | Subclass name _ => name
  end.

(** [issubclass(t, typ)] for a builtin [typ]; [bool] is a subclass of
    [int]. *)
Definition issubclass (t : pytype) (typ : builtin_type) : bool :=
  let base := match t with Builtin b => b | Subclass _ b => b end in
  bool_decide (base = typ)
  || (bool_decide (base = T_bool) && bool_decide (typ = T_int)).

(** [isinstance(v, typ)]. *)
Definition isinstance (v : pyval) (typ : builtin_type) : bool :=
  issubclass (type_of v) typ.

(** [v is Ellipsis]. *)
Definition is_Ellipsis (v : pyval) : bool :=
  match v with VEllipsis => true | _ => false end.

(** *** [==] *)

(** The binary64 format of Python's [float]. *)
Definition prec : Z := 53.
Definition emax : Z := 1024.

Inductive number : Type :=
| NInt (n : Z)
| NFloat (x : spec_float).

(** [x == n] for a float and an int compares the exact values. *)
Definition float_eq_int (x : spec_float) (n : Z) : bool :=
  match x with
  | S754_zero _ => (n =? 0)%Z
  | S754_infinity _ | S754_nan => false
  | S754_finite s m e =>
      let sm := if s then Z.neg m else Z.pos m in
      if (0 <=? e)%Z then (n =? sm * 2 ^ e)%Z
      else ((sm mod 2 ^ (- e) =? 0) && (n =? sm / 2 ^ (- e)))%Z
  end.

Definition number_eq (a b : number) : bool :=
  match a, b with
  | NInt m, NInt n => (m =? n)%Z
  | NFloat x, NFloat y => SFeqb x y
  | NInt n, NFloat x | NFloat x, NInt n => float_eq_int x n
  end.

Definition as_number (v : pyval) : option number :=
  match v with
  | VBool b => Some (NInt (Z.b2z b))
  | VInt _ n => Some (NInt n)
  | VFloat _ x => Some (NFloat x)
  | _ => None
  end.

Definition number_eq_val (a : number) (v : pyval) : bool :=
  match as_number v with
  | Some b => number_eq a b
  | None => false
  end.

(** [a == b] on two different objects. Numbers compare by value across
    [bool], [int] and [float]; strings, lists and tuples compare item by
    item, dicts by their key sets and the values under each key; a subclass
    compares like its base. A key is found in a dict by [==]. *)
Fixpoint py_eq (a b : pyval) {struct a} : bool :=
  match a with
  | VNone => match b with VNone => true | _ => false end
  | VEllipsis => match b with VEllipsis => true | _ => false end
  | VBool x => number_eq_val (NInt (Z.b2z x)) b
  | VInt _ n => number_eq_val (NInt n) b
  | VFloat _ x => number_eq_val (NFloat x) b
  | VStr _ s => match b with VStr _ t => String.eqb s t | _ => false end
  | VList _ xs =>
      match b with
      | VList _ ys =>
          (fix items_eq (xs ys : list pyval) {struct xs} : bool :=
             match xs, ys with
             | [], [] => true
             | x :: xs', y :: ys' => py_eq x y && items_eq xs' ys'
             | _, _ => false
             end) xs ys
      | _ => false
      end
  | VTuple _ xs =>
      match b with
      | VTuple _ ys =>
          (fix items_eq (xs ys : list pyval) {struct xs} : bool :=
             match xs, ys with
             | [], [] => true
             | x :: xs', y :: ys' => py_eq x y && items_eq xs' ys'
             | _, _ => false
             end) xs ys
      | _ => false
      end
  | VDict _ d1 =>
      match b with
      | VDict _ d2 =>
          (length d1 =? length d2)%nat
          && (fix all_in (d : list (pyval * pyval)) : bool :=
                match d with
                | [] => true
                | (k, v) :: d' =>
                    match
                      (fix get (d2 : list (pyval * pyval)) : option pyval :=
                         match d2 with
                         | [] => None
                         | (k', v') :: d2' =>
                             if py_eq k k' then Some v' else get d2'
                         end) d2
                    with
                    | Some v' => py_eq v v'
                    | None => false
                    end && all_in d'
                end) d1
      | _ => false
      end
  end.

(** [d.get(key)] on the items of a dict: [None] when [key not in d],
    else [Some d[key]]. *)
Fixpoint dict_get (key : pyval) (d : list (pyval * pyval)) : option pyval :=
  match d with
  | [] => None
  | (k, v) :: d' => if py_eq key k then Some v else dict_get key d'
  end.

(** *** [PartialCompareOutcome] *)

(** [error]: a string describing an error or [None]. *)
Record PartialCompareOutcome : Type := Outcome { error : option string }.

(** [__bool__]: [self.error is None]. *)
Definition outcome_bool (o : PartialCompareOutcome) : bool :=
  match error o with None => true | Some _ => false end.

(** [__str__]. *)
Definition outcome_str (o : PartialCompareOutcome) : string :=
  if outcome_bool o then "true" else "false".

(** What a call that returns gives back: [PartialCompareOutcome()] or
    [PartialCompareOutcome(msg)]. *)
Definition success : option PartialCompareOutcome := Some (Outcome None).
Definition failure (msg : string) : option PartialCompareOutcome :=
  Some (Outcome (Some msg)).

(** ** [partial_compare] and its handlers *)

Section PartialCompare.

(** Two functions from outside the repository: the builtin [repr], which
    only shapes the error text, and pytest's approximate equality,
    [approx actual expected] for [actual == pytest.approx(expected)]. *)
Variable repr : pyval -> string.
Variable approx : spec_float -> spec_float -> bool.

(** The messages that depend on the values. *)
Definition key_missing (key : pyval) : string :=
  "Key " +:+ repr key +:+ " is in second dict but not in first!".

Definition different_types (val1 val2 : pyval) : string :=
  "Different types (" +:+ type_name (type_of val1) +:+ ", "
  +:+ type_name (type_of val2) +:+ ") -> False".

(** The handlers are called after [partial_compare] has found
    [type(val1) == type(val2)] and [isinstance(val2, typ)], so both
    values are of the handler's type; on any other value the operations
    they use are not modelled ([None]). *)

(** [for key in val2]: the items of [val2] in insertion order,
    [val2[key]] being the value stored with [key]. *)
Definition _partial_compare_dict
    (partial_compare : pyval -> pyval -> option PartialCompareOutcome)
    (val1 : pyval) : list (pyval * pyval) -> option PartialCompareOutcome :=
  fix loop (items2 : list (pyval * pyval)) :=
    match items2 with
    | [] => Some (Outcome None)
    | (key, item2) :: rest =>
        match val1 with
        | VDict _ items1 =>
            match dict_get key items1 with
            | None => Some (Outcome (Some (key_missing key)))
            | Some item1 =>
                outcome ← partial_compare item1 item2;
                if negb (outcome_bool outcome) then Some outcome
                else loop rest
            end
        | _ => None
        end
    end.

(** [for item1, item2 in zip(val1, val2)]. *)
Definition zip_compare
    (partial_compare : pyval -> pyval -> option PartialCompareOutcome)
    : list pyval -> list pyval -> option PartialCompareOutcome :=
  fix loop (items1 items2 : list pyval) {struct items2} :=
    match items2, items1 with
    | item2 :: rest2, item1 :: rest1 =>
        outcome ← partial_compare item1 item2;
        if negb (outcome_bool outcome) then Some outcome
        else loop rest1 rest2
    | _, _ => Some (Outcome None)
    end.

Definition _partial_compare_list
    (partial_compare : pyval -> pyval -> option PartialCompareOutcome)
    (val1 : pyval) (items2 : list pyval) : option PartialCompareOutcome :=
  match val1 with
  | VList _ items1 =>
      if (length items1 <? length items2)%nat then
        Some (Outcome (Some "Second list is longer than first list"))
      else zip_compare partial_compare items1 items2
  | _ => None
  end.

Definition _partial_compare_float (val1 val2 : pyval)
    : option PartialCompareOutcome :=
  match val1, val2 with
  | VFloat _ x1, VFloat _ x2 =>
      if approx x1 x2 then Some (Outcome None)
      else Some (Outcome (Some
             (repr val1 +:+ " != " +:+ repr val2
              +:+ " (float comparison)")))
  | _, _ => None
  end.

Definition _partial_compare_str (val1 val2 : pyval)
    : option PartialCompareOutcome :=
  match val1, val2 with
  | VStr _ s1, VStr _ s2 =>
      matched ← pattern_match s2 s1;
      if matched : bool then Some (Outcome None)
      else Some (Outcome (Some
             (repr val1 +:+ " != " +:+ repr val2
              +:+ " (pattern matching)")))
  | _, _ => None
  end.

Definition _partial_compare_eq (val1 val2 : pyval)
    : option PartialCompareOutcome :=
  if py_eq val1 val2 then Some (Outcome None)
  else Some (Outcome (Some (repr val1 +:+ " != " +:+ repr val2))).

(** The handlers are tried in the order [dict], [list], [float], [str];
    the first one whose type [val2] is an instance of is taken, and [==]
    when there is none. *)
Fixpoint partial_compare (val1 val2 : pyval) {struct val2}
    : option PartialCompareOutcome :=
  if is_Ellipsis val2 then Some (Outcome None)
  else if bool_decide (type_of val1 <> type_of val2) then
    Some (Outcome (Some (different_types val1 val2)))
  else if isinstance val2 T_dict then
    match val2 with
    | VDict _ items2 => _partial_compare_dict partial_compare val1 items2
    | _ => None
    end
  else if isinstance val2 T_list then
    match val2 with
    | VList _ items2 => _partial_compare_list partial_compare val1 items2
    | _ => None
    end
  else if isinstance val2 T_float then _partial_compare_float val1 val2
  else if isinstance val2 T_str then _partial_compare_str val1 val2
  else _partial_compare_eq val1 val2.

End PartialCompare.

(** A pair of values whose types differ, met at the top level or at a level
    the comparison descends to: under a position of two lists, or under a
    key of two dicts. *)
Inductive type_mismatch_inside : pyval -> pyval -> Prop :=
| mismatch_here (val1 val2 : pyval) :
    val2 <> VEllipsis -> type_of val1 <> type_of val2 ->
    type_mismatch_inside val1 val2
| mismatch_in_list (cls : option string) (items1 items2 : list pyval)
    (i : nat) (item1 item2 : pyval) :
    items1 !! i = Some item1 -> items2 !! i = Some item2 ->
    type_mismatch_inside item1 item2 ->
    type_mismatch_inside (VList cls items1) (VList cls items2)
| mismatch_in_dict (cls : option string)
    (items1 items2 : list (pyval * pyval)) (key item1 item2 : pyval) :
    (key, item2) ∈ items2 -> dict_get key items1 = Some item1 ->
    type_mismatch_inside item1 item2 ->
    type_mismatch_inside (VDict cls items1) (VDict cls items2).

(** ** Expected values that ask for less *)

(** [less_specific expected' expected]: [expected'] is [expected] with
    some parts replaced by the ellipsis, some keys of its dicts dropped and
    its lists cut to a prefix. *)
#[local] Unset Elimination Schemes.
Inductive less_specific : pyval -> pyval -> Prop :=
| less_ellipsis (expected : pyval) : less_specific VEllipsis expected
| less_same (expected : pyval) : less_specific expected expected
| less_list (cls : option string) (items' items : list pyval) :
    length items' <= length items ->
    (forall i item' item,
       items' !! i = Some item' -> items !! i = Some item ->
       less_specific item' item) ->
    less_specific (VList cls items') (VList cls items)
| less_dict (cls : option string) (items' items : list (pyval * pyval)) :
    (forall key item',
       (key, item') ∈ items' ->
       exists item, (key, item) ∈ items /\ less_specific item' item) ->
    less_specific (VDict cls items') (VDict cls items).
#[local] Set Elimination Schemes.

(** A value with no NaN in it and no key twice in a dict: one that, as
    one object, is equal to itself. *)
Fixpoint well_formed (v : pyval) : bool :=
  match v with
  | VFloat _ x => SFeqb x x
  | VList _ items | VTuple _ items => forallb well_formed items
  | VDict _ items =>
      (fix keys_differ (d : list (pyval * pyval)) : bool :=
         match d with
         | [] => true
         | (k, x) :: d' =>
             well_formed k && well_formed x
             && forallb (fun kv => negb (py_eq kv.1 k)) d'
             && keys_differ d'
         end) items
  | _ => true
  end.

(** ** pytest's [approx] on two floats, with its default tolerances *)

Module Pytest.

(** [1e-6] and [1e-12] as binary64 numbers. *)
Definition DEFAULT_RELATIVE_TOLERANCE : spec_float :=
  S754_finite false 0x10c6f7a0b5ed8d (-72).
Definition DEFAULT_ABSOLUTE_TOLERANCE : spec_float :=
  S754_finite false 0x119799812dea11 (-92).

Definition isnan (x : spec_float) : bool :=
  match x with S754_nan => true | _ => false end.
Definition isinf (x : spec_float) : bool :=
  match x with S754_infinity _ => true | _ => false end.

(** [max(a, b)] of two floats: [b] when [b > a], else [a]. *)
Definition fmax (a b : spec_float) : spec_float :=
  if SFltb a b then b else a.

(** [ApproxScalar.tolerance]:
    [max(rel * abs(expected), abs)]. *)
Definition tolerance (expected : spec_float) : spec_float :=
  fmax (SFmul prec emax DEFAULT_RELATIVE_TOLERANCE (SFabs expected))
       DEFAULT_ABSOLUTE_TOLERANCE.

(** [actual == pytest.approx(expected)]: exact equality is accepted
    first; a NaN or infinite [expected] equals nothing else; otherwise
    [abs(expected - actual) <= tolerance]. *)
Definition approx (actual expected : spec_float) : bool :=
  if SFeqb actual expected then true
  else if isnan expected then false
  else if isinf expected then false
  else SFleb (SFabs (SFsub prec emax expected actual)) (tolerance expected).

End Pytest.

(** ** The freeze script *)

Module Freeze.

(** The file system as the script sees it: the paths that exist. *)
Abbreviation filesystem := (gset string).

(** A step of the script leaves a file system behind and either completes
    ([None]) or raises an exception, given by its name. *)
Definition step : Type := filesystem -> option string * filesystem.

Definition skip : step := fun fs => (None, fs).

(** [first; second]: [second] does not run when [first] raises. *)
Definition seq (first second : step) : step := fun fs =>
  match first fs with
  | (None, fs') => second fs'
  | (Some exc, fs') => (Some exc, fs')
  end.

(** [try: body finally: cleanup]: [cleanup] runs in either case; the
    exception of [body] is raised again after it, unless [cleanup] raises
    one of its own. *)
Definition try_finally (body cleanup : step) : step := fun fs =>
  let '(raised, fs') := body fs in
  match cleanup fs' with
  | (None, fs'') => (raised, fs'')
  | (Some exc, fs'') => (Some exc, fs'')
  end.

(** [os.path.exists(path)]. *)
Definition os_path_exists (path : string) (fs : filesystem) : bool :=
  bool_decide (path ∈ fs).

(** [os.remove(path)]. *)
Definition os_remove (path : string) : step := fun fs =>
  if os_path_exists path fs then (None, fs ∖ {[path]})
  else (Some "FileNotFoundError", fs).

(** Writing a file at [path]: what a [write_git_file] does. *)
Definition write_file (path : string) : step := fun fs =>
  (None, {[path]} ∪ fs).

(** A step that fails. *)
Definition raise (exc : string) : step := fun fs => (Some exc, fs).

Section Script.

(** [os.path.join] of the platform; [BASEDIR], which is [None] when
    [__file__] is not defined; [write_git_file] of
    [scripts.setupcommon]; and [cx_Freeze]'s [setup] applied to the
    script's options. *)
Variable os_path_join : list string -> string.
Variable BASEDIR : option string.
Variable write_git_file : step.
Variable setup : step.

Definition git_commit_id (basedir : string) : string :=
  os_path_join [basedir; "qutebrowser"; "git-commit-id"].

(** The [finally] block. *)
Definition cleanup : step := fun fs =>
  match BASEDIR with
  | Some basedir =>
      let path := git_commit_id basedir in
      if os_path_exists path fs then os_remove path fs
      else (None, fs)
  | None => (None, fs)
  end.

(** The [try] statement at the end of the script. *)
Definition freeze : step :=
  try_finally (seq write_git_file setup) cleanup.

End Script.

(** [posixpath.join] on components that are not absolute paths. *)
Definition posix_join (parts : list string) : string := str_join "/" parts.

End Freeze.

(** ** Values used in the examples *)

(** [0.1], [0.2], [0.3] and [1.0] as binary64 numbers. *)
Definition f0_1 : spec_float := S754_finite false 0x1999999999999a (-56).
Definition f0_2 : spec_float := S754_finite false 0x1999999999999a (-55).
Definition f0_3 : spec_float := S754_finite false 0x13333333333333 (-54).
Definition f1_0 : spec_float := S754_finite false 0x10000000000000 (-52).

Definition py_int (n : Z) : pyval := VInt None n.
Definition py_str (s : string) : pyval := VStr None s.
Definition py_float (x : spec_float) : pyval := VFloat None x.
Definition py_list (items : list pyval) : pyval := VList None items.
Definition py_dict (items : list (pyval * pyval)) : pyval := VDict None items.

(** A stand-in for [repr] and [pprint.pformat] in the examples: the name
    of the type between angle brackets. *)
Definition type_tag (v : pyval) : string :=
  "<" +:+ type_name (type_of v) +:+ ">".

(** ** Measures of a pattern *)

(** The characters of a pattern other than [*]: each of them takes one
    character of a value that matches. *)
Fixpoint literal_count (pattern : string) : nat :=
  match pattern with
  | EmptyString => 0
  | String c rest =>
      (if Ascii.eqb c "*" then 0 else 1) + literal_count rest
  end.

(** ** The diagnostic trace of [partial_compare] *)

(** [s * n]. *)
Fixpoint str_repeat (s : string) (n : nat) : string :=
  match n with
  | 0 => EmptyString
  | S n' => s +:+ str_repeat s n'
  end.

(** [s.startswith(prefix)]. *)
Fixpoint startswith (prefix s : string) : bool :=
  match prefix, s with
  | EmptyString, _ => true
  | String p prefix', String c s' => Ascii.eqb p c && startswith prefix' s'
  | String _ _, EmptyString => false
  end.

(** The line boundaries of [str.splitlines] among the 256 characters:
    [\n], [\v], [\f], [\r], [\x1c], [\x1d], [\x1e] and [\x85]. *)
Definition is_linebreak (c : ascii) : bool :=
  existsb (Ascii.eqb c)
    ["010"; "011"; "012"; "013"; "028"; "029"; "030"; "133"]%char.

(** [s.splitlines()]: the lines without their boundaries; [\r\n] is one
    boundary, and a boundary at the very end opens no further line. *)
Fixpoint splitlines (s : string) : list string :=
  match s with
  | EmptyString => []
  | String c rest =>
      if is_linebreak c then
        EmptyString ::
          (if Ascii.eqb c "013" then
             match rest with
             | String "010" rest' => splitlines rest'
             | _ => splitlines rest
             end
           else splitlines rest)
      else match splitlines rest with
           | [] => [String c EmptyString]
           | line :: lines => String c line :: lines
           end
  end.

(** A text with no line boundary in it. *)
Fixpoint no_linebreak (s : string) : bool :=
  match s with
  | EmptyString => true
  | String c rest => negb (is_linebreak c) && no_linebreak rest
  end.

(** What is written to stdout: the argument of each [print] call, in
    order. *)
Definition stdout : Type := list string.

(** [print_i(text, indent, error)]. *)
Definition print_i (text : string) (indent : nat) (error : bool) : stdout :=
  let text := if error then "| ****** " +:+ text +:+ " ******" else text in
  (fun line => str_repeat "|   " indent +:+ line) <$> splitlines text.

(** A line as a call at [indent] writes it: it starts with the indentation
    and holds no line boundary. *)
Definition indented (indent : nat) (line : string) : Prop :=
  startswith (str_repeat "|   " indent) line = true
  /\ no_linebreak line = true.

Section PartialCompareTrace.

(** [repr] and [approx] as before; [pprint.pformat]; and [ON_CI], whether
    the environment has a variable [CI]. *)
Variable repr : pyval -> string.
Variable approx : spec_float -> spec_float -> bool.
Variable pformat : pyval -> string.
Variable ON_CI : bool.

(** [gha_group_begin(name)] and [gha_group_end()]: their [assert ON_CI]
    fails outside CI. *)
Definition gha_group_begin (name : string) : option string :=
  if ON_CI then Some ("::group::" +:+ name) else None.

Definition gha_group_end : option string :=
  if ON_CI then Some "::endgroup::" else None.

(** The handlers and [partial_compare] once more, this time with what they
    print: a call returns its outcome and the lines it wrote. *)
Definition _partial_compare_dict_io
    (partial_compare_io :
       pyval -> pyval -> nat -> option (PartialCompareOutcome * stdout))
    (val1 : pyval) (indent : nat)
    : list (pyval * pyval) -> option (PartialCompareOutcome * stdout) :=
  fix loop (items2 : list (pyval * pyval)) :=
    match items2 with
    | [] => Some (Outcome None, [])
    | (key, item2) :: rest =>
        match val1 with
        | VDict _ items1 =>
            match dict_get key items1 with
            | None =>
                let outcome := Outcome (Some (key_missing repr key)) in
                Some (outcome, print_i (key_missing repr key) indent true)
            | Some item1 =>
                match partial_compare_io item1 item2 (indent + 1) with
                | Some (outcome, out) =>
                    if negb (outcome_bool outcome) then Some (outcome, out)
                    else match loop rest with
                         | Some (outcome', out') =>
                             Some (outcome', out ++ out')
                         | None => None
                         end
                | None => None
                end
            end
        | _ => None
        end
    end.

Definition zip_compare_io
    (partial_compare_io :
       pyval -> pyval -> nat -> option (PartialCompareOutcome * stdout))
    (indent : nat)
    : list pyval -> list pyval -> option (PartialCompareOutcome * stdout) :=
  fix loop (items1 items2 : list pyval) {struct items2} :=
    match items2, items1 with
    | item2 :: rest2, item1 :: rest1 =>
        match partial_compare_io item1 item2 (indent + 1) with
        | Some (outcome, out) =>
            if negb (outcome_bool outcome) then Some (outcome, out)
            else match loop rest1 rest2 with
                 | Some (outcome', out') => Some (outcome', out ++ out')
                 | None => None
                 end
        | None => None
        end
    | _, _ => Some (Outcome None, [])
    end.

Definition _partial_compare_list_io
    (partial_compare_io :
       pyval -> pyval -> nat -> option (PartialCompareOutcome * stdout))
    (val1 : pyval) (indent : nat) (items2 : list pyval)
    : option (PartialCompareOutcome * stdout) :=
  match val1 with
  | VList _ items1 =>
      if (length items1 <? length items2)%nat then
        let msg := "Second list is longer than first list" in
        Some (Outcome (Some msg), print_i msg indent true)
      else zip_compare_io partial_compare_io indent items1 items2
  | _ => None
  end.

(** The other three handlers print nothing. *)
Definition quiet (result : option PartialCompareOutcome)
    : option (PartialCompareOutcome * stdout) :=
  outcome ← result; Some (outcome, []).

(** The lines written before and after a comparison at the top level on
    CI. *)
Definition group_line (indent : nat) (line : option string)
    : option stdout :=
  if ON_CI && (indent =? 0)%nat then l ← line; Some [l] else Some [].

Fixpoint partial_compare_io (val1 val2 : pyval) (indent : nat) {struct val2}
    : option (PartialCompareOutcome * stdout) :=
  match group_line indent (gha_group_begin "Comparison") with
  | None => None
  | Some begin =>
      let head :=
        begin ++ print_i "Comparing" indent false
        ++ print_i (pformat val1) (indent + 1) false
        ++ print_i "|---- to ----" indent false
        ++ print_i (pformat val2) (indent + 1) false in
      if is_Ellipsis val2 then
        Some (Outcome None,
              head ++ print_i "Ignoring ellipsis comparison" indent true)
      else if bool_decide (type_of val1 <> type_of val2) then
        Some (Outcome (Some (different_types val1 val2)),
              head ++ print_i (different_types val1 val2) indent true)
      else
        let handled :=
          if isinstance val2 T_dict then
            match val2 with
            | VDict _ items2 =>
                '(outcome, out) ←
                  _partial_compare_dict_io partial_compare_io val1 indent
                    items2;
                Some (outcome,
                      print_i "|======= Comparing as dict" indent false
                      ++ out)
            | _ => None
            end
          else if isinstance val2 T_list then
            match val2 with
            | VList _ items2 =>
                '(outcome, out) ←
                  _partial_compare_list_io partial_compare_io val1 indent
                    items2;
                Some (outcome,
                      print_i "|======= Comparing as list" indent false
                      ++ out)
            | _ => None
            end
          else if isinstance val2 T_float then
            '(outcome, out) ← quiet (_partial_compare_float repr approx
                                       val1 val2);
            Some (outcome,
                  print_i "|======= Comparing as float" indent false ++ out)
          else if isinstance val2 T_str then
            '(outcome, out) ← quiet (_partial_compare_str repr val1 val2);
            Some (outcome,
                  print_i "|======= Comparing as str" indent false ++ out)
          else
            '(outcome, out) ← quiet (_partial_compare_eq repr val1 val2);
            Some (outcome,
                  print_i "|======= Comparing via ==" indent false ++ out) in
        match handled with
        | None => None
        | Some (outcome, out) =>
            match group_line indent gha_group_end with
            | None => None
            | Some finish =>
                Some (outcome,
                      head ++ out
                      ++ print_i ("---> " +:+ outcome_str outcome) indent
                           false
                      ++ finish)
            end
        end
  end.

(** The parts of what a call writes. *)
Definition group_lines (indent : nat) (line : string) : stdout :=
  if ON_CI && (indent =? 0)%nat then [line] else [].

Definition head_lines (val1 val2 : pyval) (indent : nat) : stdout :=
  group_lines indent "::group::Comparison"
  ++ print_i "Comparing" indent false
  ++ print_i (pformat val1) (indent + 1) false
  ++ print_i "|---- to ----" indent false
  ++ print_i (pformat val2) (indent + 1) false.

Definition handled (val1 val2 : pyval) (indent : nat)
    : option (PartialCompareOutcome * stdout) :=
  if isinstance val2 T_dict then
    match val2 with
    | VDict _ items2 =>
        '(outcome, out) ←
          _partial_compare_dict_io partial_compare_io val1 indent
            items2;
        Some (outcome,
              print_i "|======= Comparing as dict" indent false ++ out)
    | _ => None
    end
  else if isinstance val2 T_list then
    match val2 with
    | VList _ items2 =>
        '(outcome, out) ←
          _partial_compare_list_io partial_compare_io val1 indent items2;
        Some (outcome,
              print_i "|======= Comparing as list" indent false ++ out)
    | _ => None
    end
  else if isinstance val2 T_float then
    '(outcome, out) ← quiet (_partial_compare_float repr approx val1 val2);
    Some (outcome,
          print_i "|======= Comparing as float" indent false ++ out)
  else if isinstance val2 T_str then
    '(outcome, out) ← quiet (_partial_compare_str repr val1 val2);
    Some (outcome, print_i "|======= Comparing as str" indent false ++ out)
  else
    '(outcome, out) ← quiet (_partial_compare_eq repr val1 val2);
    Some (outcome, print_i "|======= Comparing via ==" indent false ++ out).

End PartialCompareTrace.

(** ** [change_cwd] *)

Module ChangeCwd.

(** What the context manager sees of the process: its current directory
    and the directories that exist. *)
Record process : Type := Process { cwd : string; dirs : gset string }.

(** A step completes ([None]) or raises, and leaves a process state. *)
Definition step : Type := process -> option string * process.

Definition try_finally (body cleanup : step) : step := fun st =>
  let '(raised, st') := body st in
  match cleanup st' with
  | (None, st'') => (raised, st'')
  | (Some exc, st'') => (Some exc, st'')
  end.

Section ChangeCwd.

(** The directory a path names, seen from a current directory. *)
Variable abspath : string -> string -> string.

(** [os.chdir(path)]. *)
Definition os_chdir (path : string) : step := fun st =>
  let target := abspath (cwd st) path in
  if bool_decide (target ∈ dirs st) then
    (None, {| cwd := target; dirs := dirs st |})
  else (Some "FileNotFoundError", st).

(** [with change_cwd(path): body]: the generator runs up to its [yield]
    on entry, and its [finally] block when [body] is over or has raised. *)
Definition change_cwd (path : string) (body : step) : step := fun st =>
  let old_cwd := cwd st in
  match os_chdir path st with
  | (Some exc, st') => (Some exc, st')
  | (None, st') => try_finally body (os_chdir old_cwd) st'
  end.

End ChangeCwd.

(** [os.path.abspath] for POSIX paths that need no normalisation. *)
Definition posix_abspath (cwd path : string) : string :=
  if startswith "/" path then path else cwd +:+ "/" +:+ path.

End ChangeCwd.

(** ** [disable_seccomp_bpf_sandbox] *)

Module Seccomp.

Section Seccomp.

(** [utils.VersionNumber], compared by [==], and its [parse];
    whether [QtWebEngine] could be imported; and
    [version.qtwebengine_versions(avoid_init=True).webengine]. *)
Context {VersionNumber : Type} `{EqDecision VersionNumber}.
Variable parse : string -> VersionNumber.
Variable QtWebEngine : bool.
Variable webengine : VersionNumber.

(** The list the loop runs over; [range(0, n)] is [seq 0 n]. *)
Definition patch_ranges : list (string * list nat) :=
  [("5.12", seq 0 11); ("5.13", seq 0 3); ("5.14", [0]); ("5.15", seq 0 3)].

(** [affected_versions], in the order of insertion. *)
Definition affected_versions : list VersionNumber :=
  '(base, patch_range) ← patch_ranges;
  patch ← patch_range;
  [parse (base +:+ "." +:+ pretty patch)].

Definition disable_seccomp_bpf_sandbox : bool :=
  if negb QtWebEngine then false
  else bool_decide (webengine ∈ affected_versions).

End Seccomp.

End Seccomp.

(** ** The freeze script, from its first statement *)

Module FreezeScript.

(** [get_egl_path()], given [sys.platform] and
    [platform.architecture()[0]]: [inl] for an exception, [inr] for the
    value returned. *)
Definition get_egl_path (platform bits : string) : string + option string :=
  if negb (startswith "win" platform) then inr None
  else if String.eqb bits "32bit" then
    inr (Some "C:\Python33_x32\Lib\site-packages\PyQt5\libEGL.dll")
  else if String.eqb bits "64bit" then
    inr (Some "C:\Python33\Lib\site-packages\PyQt5\libEGL.dll")
  else inl "ValueError".

(** [build_exe_options['include_files']] once [egl_path] is known. *)
Definition include_files (egl_path : option string)
    : list (string * string) :=
  [("qutebrowser/html", "html");
   ("qutebrowser/git-commit-id", "git-commit-id")]
  ++ match egl_path with
     | Some path => [(path, "libEGL.dll")]
     | None => []
     end.

(** [base]. *)
Definition base (platform : string) : option string :=
  if startswith "win" platform then Some "Win32GUI" else None.

Section Script.

(** As in [Freeze]; [setup] is given the include files and the base of
    the executable. *)
Variable os_path_join : list string -> string.
Variable BASEDIR : option string.
Variable write_git_file : Freeze.step.
Variable setup : list (string * string) -> option string -> Freeze.step.

(** The statements of the script in order: [get_egl_path()] is called
    before the [try] statement. *)
Definition main (platform bits : string) : Freeze.step :=
  match get_egl_path platform bits with
  | inl exc => Freeze.raise exc
  | inr egl_path =>
      Freeze.freeze os_path_join BASEDIR write_git_file
        (setup (include_files egl_path) (base platform))
  end.

End Script.

End FreezeScript.

(** A body that moves to the root directory and then fails. *)
Definition failing_body : ChangeCwd.step := fun st =>
  (Some "RuntimeError",
   {| ChangeCwd.cwd := "/"; ChangeCwd.dirs := ChangeCwd.dirs st |}).

(** * Properties *)

(** ** [pattern_match] *)

Lemma str_split_nonempty sep s : str_split sep s <> [].
Proof.
  destruct s as [|c s]; simpl; [discriminate|].
  destruct (Ascii.eqb c sep); [discriminate|].
  destruct (str_split sep s); discriminate.
Qed.

Lemma append_cons (c : ascii) (a b : string) :
  String c a +:+ b = String c (a +:+ b).
Proof. reflexivity. Qed.

Lemma append_empty_l (b : string) : "" +:+ b = b.
Proof. reflexivity. Qed.

Lemma append_assoc (a b c : string) : (a +:+ b) +:+ c = a +:+ (b +:+ c).
Proof.
  induction a as [|x a IH]; [reflexivity|].
  now rewrite !append_cons, IH.
Qed.

Lemma append_empty_r (a : string) : a +:+ "" = a.
Proof.
  induction a as [|x a IH]; [reflexivity|]. now rewrite append_cons, IH.
Qed.

Lemma re_pattern_of_star p :
  re_pattern_of (String "*" p) = String "." (String "*" (re_pattern_of p)).
Proof.
  unfold re_pattern_of. simpl.
  pose proof (str_split_nonempty "*" p) as Hne.
  destruct (str_split "*" p) as [|q qs]; [congruence | reflexivity].
Qed.

Lemma re_pattern_of_literal c p :
  c <> "*"%char ->
  re_pattern_of (String c p) = Re.escape (String c "") +:+ re_pattern_of p.
Proof.
  intros Hc. unfold re_pattern_of.
  cbn [str_split]. destruct (Ascii.eqb_spec c "*") as [->|_]; [congruence|].
  pose proof (str_split_nonempty "*" p) as Hne.
  destruct (str_split "*" p) as [|q qs]; [congruence|].
  destruct qs as [|q' qs]; cbn [fmap list_fmap str_join Re.escape];
    destruct (Re.is_special c); reflexivity.
Qed.

Lemma re_pattern_of_no_leading_star p rest :
  re_pattern_of p <> String "*" rest.
Proof.
  destruct p as [|c p]; [discriminate|].
  destruct (Ascii.eqb_spec c "*") as [->|Hc].
  - rewrite re_pattern_of_star. discriminate.
  - rewrite re_pattern_of_literal by assumption. cbn [Re.escape].
    destruct (Re.is_special c); rewrite !append_cons; congruence.
Qed.

Lemma special_not_alnum c : Re.is_special c = true -> Re.is_alnum c = false.
Proof.
  intros H. destruct c as [[] [] [] [] [] [] [] []];
    solve [reflexivity | vm_compute in H; discriminate H].
Qed.

Lemma compile_escaped c rest :
  Re.is_special c = true ->
  (forall rest', rest <> String "*" rest') ->
  Re.compile (String "\" (String c rest))
  = cons (Re.Once (Re.Literal c)) <$> Re.compile rest.
Proof.
  intros Hc Hrest. cbn [Re.compile]. rewrite (special_not_alnum c Hc).
  destruct rest as [|r rest]; [reflexivity|].
  destruct (Ascii.eqb_spec r "*") as [->|Hr]; [now destruct (Hrest rest)|].
  destruct r as [[] [] [] [] [] [] [] []]; solve [reflexivity | congruence].
Qed.

Lemma compile_plain c rest :
  Re.is_special c = false ->
  (forall rest', rest <> String "*" rest') ->
  Re.compile (String c rest)
  = cons (Re.Once (Re.Literal c)) <$> Re.compile rest.
Proof.
  intros Hc Hrest.
  assert (Re.compile (String c rest)
          = match rest with
            | String "*" rest' =>
                cons (Re.MaxRepeat (Re.Literal c)) <$> Re.compile rest'
            | _ => cons (Re.Once (Re.Literal c)) <$> Re.compile rest
            end) as ->.
  { destruct c as [[] [] [] [] [] [] [] []];
      solve [reflexivity | vm_compute in Hc; discriminate Hc]. }
  destruct rest as [|r rest]; [reflexivity|].
  destruct (Ascii.eqb_spec r "*") as [->|Hr]; [now destruct (Hrest rest)|].
  destruct r as [[] [] [] [] [] [] [] []]; solve [reflexivity | congruence].
Qed.

(** The escaped and joined text always parses, to the intended pattern. *)
Lemma compile_re_pattern_of p :
  Re.compile (re_pattern_of p) = Some (nodes_of_glob p).
Proof.
  induction p as [|c p IH]; [reflexivity|].
  cbn [nodes_of_glob]. destruct (Ascii.eqb_spec c "*") as [->|Hc].
  - rewrite re_pattern_of_star. cbn [Re.compile]. now rewrite IH.
  - rewrite re_pattern_of_literal by assumption. cbn [Re.escape].
    destruct (Re.is_special c) eqn:Hs; rewrite !append_cons, append_empty_l.
    + rewrite compile_escaped, IH;
        auto using re_pattern_of_no_leading_star.
    + rewrite compile_plain, IH;
        auto using re_pattern_of_no_leading_star.
Qed.

Lemma pattern_match_eq pattern value :
  pattern_match pattern value
  = Some (Re.match_here true (nodes_of_glob pattern) value).
Proof.
  unfold pattern_match, Re.fullmatch.
  now rewrite compile_re_pattern_of.
Qed.

Lemma match_here_repeat dotall a p s :
  Re.match_here dotall (Re.MaxRepeat a :: p) s
  = match s with
    | String c s' =>
        Re.atom_matches dotall a c
        && Re.match_here dotall (Re.MaxRepeat a :: p) s'
    | EmptyString => false
    end || Re.match_here dotall p s.
Proof. destruct s; reflexivity. Qed.

(** [.*] under [DOTALL] takes any run of characters, the rest of the
    pattern takes what is left. *)
Lemma match_here_any_star p v :
  Re.match_here true (Re.MaxRepeat Re.AnyChar :: p) v = true
  <-> exists run rest, v = run +:+ rest /\ Re.match_here true p rest = true.
Proof.
  induction v as [|c v IH]; rewrite match_here_repeat.
  - split.
    + intros H. exists "", "". split; [reflexivity | exact H].
    + intros (run & rest & Hv & Hm).
      destruct run; [|discriminate]. rewrite append_empty_l in Hv.
      now subst rest.
  - cbn [Re.atom_matches orb andb]. rewrite orb_true_iff, IH. split.
    + intros [(run & rest & -> & Hm) | Hm].
      * exists (String c run), rest. now rewrite append_cons.
      * exists "", (String c v). split; [reflexivity | exact Hm].
    + intros (run & rest & Hv & Hm). destruct run as [|r run].
      * right. rewrite append_empty_l in Hv. now subst rest.
      * left. rewrite append_cons in Hv. injection Hv as -> ->. eauto.
Qed.

Lemma match_here_glob pattern value :
  Re.match_here true (nodes_of_glob pattern) value = true
  <-> glob_matches pattern value.
Proof.
  split.
  - revert value. induction pattern as [|c p IH]; intros value H.
    + destruct value; [constructor | discriminate].
    + cbn [nodes_of_glob] in H. destruct (Ascii.eqb_spec c "*") as [->|Hc].
      * apply match_here_any_star in H as (run & rest & -> & Hm).
        constructor. now apply IH.
      * destruct value as [|c' v]; [discriminate|].
        cbn in H. apply andb_true_iff in H as [Hcc Hm].
        apply Ascii.eqb_eq in Hcc as <-. constructor; auto.
  - induction 1 as [|c p v Hc _ IH|p run v _ IH].
    + reflexivity.
    + cbn [nodes_of_glob]. destruct (Ascii.eqb_spec c "*"); [congruence|].
      cbn. now rewrite Ascii.eqb_refl.
    + cbn [nodes_of_glob Ascii.eqb Bool.eqb]. apply match_here_any_star. eauto.
Qed.

Lemma pattern_match_true pattern value :
  pattern_match pattern value = Some true <-> glob_matches pattern value.
Proof.
  rewrite pattern_match_eq, <- match_here_glob.
  split; [now intros [= ->] | now intros ->].
Qed.

Lemma glob_matches_no_star pattern value :
  has_star pattern = false ->
  glob_matches pattern value <-> value = pattern.
Proof.
  intros Hstar. split.
  - induction 1 as [|c p v Hc _ IH|p run v _ IH].
    + reflexivity.
    + f_equal. apply IH. cbn in Hstar.
      now apply orb_false_iff in Hstar as [_ ?].
    + discriminate Hstar.
  - intros ->. induction pattern as [|c p IH]; [constructor|].
    cbn in Hstar. apply orb_false_iff in Hstar as [Hc Hp].
    constructor; [|now apply IH].
    intros ->. discriminate Hc.
Qed.

(** C1: [pattern_match] returns [True] exactly when the value matches the
    pattern under the rule "[*] matches any run of characters, newlines
    included, every other character is literal, the whole value is
    consumed", and [False] otherwise; ["foo*bar"] matches ["foobazbar"],
    also with a newline in the run, and does not match ["foobaz"]; a
    pattern without [*] matches exactly the value equal to it. *)
Theorem pattern_match_is_glob :
  (forall pattern value,
     pattern_match pattern value = Some true <-> glob_matches pattern value)
  /\ (forall pattern value,
        pattern_match pattern value = Some false
        <-> ~ glob_matches pattern value)
  /\ pattern_match "foo*bar" "foobazbar" = Some true
  /\ pattern_match "foo*bar" ("foo" +:+ String "010" "bar") = Some true
  /\ pattern_match "foo*bar" "foobaz" = Some false
  /\ (forall pattern value,
        has_star pattern = false ->
        pattern_match pattern value = Some true <-> value = pattern).
Proof.
  split; [exact pattern_match_true|]. split; [|split; [|split; [|split]]].
  - intros pattern value. rewrite <- pattern_match_true, pattern_match_eq.
    destruct (Re.match_here true (nodes_of_glob pattern) value);
      split; congruence.
  - vm_compute. reflexivity.
  - vm_compute. reflexivity.
  - vm_compute. reflexivity.
  - intros pattern value Hstar.
    rewrite pattern_match_true. now apply glob_matches_no_star.
Qed.

(** The last part of C1 at the pattern ["foobar"], which has no [*]. *)
Lemma pattern_match_is_glob_witness :
  has_star "foobar" = false
  /\ (pattern_match "foobar" "foobar" = Some true <-> "foobar" = "foobar").
Proof.
  split; [reflexivity|].
  apply (proj2 (proj2 (proj2 (proj2 (proj2 pattern_match_is_glob))))).
  reflexivity.
Defined.

(** C10: [*] also matches the empty run: ["foo*bar"] matches ["foobar"];
    the pattern ["*"] matches every value, the empty one included; the
    empty pattern matches the empty value and nothing else. *)
Theorem pattern_match_empty_run :
  pattern_match "foo*bar" "foobar" = Some true
  /\ (forall value, pattern_match "*" value = Some true)
  /\ pattern_match "*" "" = Some true
  /\ (forall value, pattern_match "" value = Some true <-> value = "").
Proof.
  split; [vm_compute; reflexivity|]. split; [|split].
  - intros value. apply pattern_match_true.
    rewrite <- (append_empty_r value). constructor. constructor.
  - vm_compute. reflexivity.
  - intros value. rewrite pattern_match_eq. cbn.
    destruct value; split; congruence.
Qed.

(** ** [partial_compare] *)

(** Two values of one type are built alike. *)
Lemma same_type_dict v1 cls items2 :
  type_of v1 = type_of (VDict cls items2) ->
  exists items1, v1 = VDict cls items1.
Proof.
  destruct v1 as [| | |c ?|c ?|c ?|c ?|c ?|c ?]; try destruct c;
    destruct cls; intros [=]; subst; eauto.
Qed.

Lemma same_type_list v1 cls items2 :
  type_of v1 = type_of (VList cls items2) ->
  exists items1, v1 = VList cls items1.
Proof.
  destruct v1 as [| | |c ?|c ?|c ?|c ?|c ?|c ?]; try destruct c;
    destruct cls; intros [=]; subst; eauto.
Qed.

Lemma same_type_float v1 cls x2 :
  type_of v1 = type_of (VFloat cls x2) -> exists x1, v1 = VFloat cls x1.
Proof.
  destruct v1 as [| | |c ?|c ?|c ?|c ?|c ?|c ?]; try destruct c;
    destruct cls; intros [=]; subst; eauto.
Qed.

Lemma same_type_str v1 cls s2 :
  type_of v1 = type_of (VStr cls s2) -> exists s1, v1 = VStr cls s1.
Proof.
  destruct v1 as [| | |c ?|c ?|c ?|c ?|c ?|c ?]; try destruct c;
    destruct cls; intros [=]; subst; eauto.
Qed.

Lemma outcome_bool_true o : outcome_bool o = true <-> o = Outcome None.
Proof. destruct o as [[msg|]]; cbn; split; congruence. Qed.

Lemma outcome_bool_false o :
  outcome_bool o = false <-> exists msg, o = Outcome (Some msg).
Proof.
  destruct o as [[msg|]]; cbn; split; try congruence; eauto.
  intros [? [=]].
Qed.

(** [isinstance] looks at the base of the type only. *)
Lemma isinstance_class_of v base cls typ :
  type_of v = class_of base cls -> base <> T_bool ->
  isinstance v typ = bool_decide (base = typ).
Proof.
  unfold isinstance, issubclass. intros -> Hbase.
  destruct cls; cbn; rewrite (bool_decide_eq_false_2 (base = T_bool)) by done;
    apply orb_false_r.
Qed.

Lemma isinstance_VInt cls n typ :
  isinstance (VInt cls n) typ = bool_decide (T_int = typ).
Proof. now apply (isinstance_class_of _ T_int cls). Qed.

Lemma isinstance_VFloat cls x typ :
  isinstance (VFloat cls x) typ = bool_decide (T_float = typ).
Proof. now apply (isinstance_class_of _ T_float cls). Qed.

Lemma isinstance_VStr cls s typ :
  isinstance (VStr cls s) typ = bool_decide (T_str = typ).
Proof. now apply (isinstance_class_of _ T_str cls). Qed.

Lemma isinstance_VList cls items typ :
  isinstance (VList cls items) typ = bool_decide (T_list = typ).
Proof. now apply (isinstance_class_of _ T_list cls). Qed.

Lemma isinstance_VTuple cls items typ :
  isinstance (VTuple cls items) typ = bool_decide (T_tuple = typ).
Proof. now apply (isinstance_class_of _ T_tuple cls). Qed.

Lemma isinstance_VDict cls items typ :
  isinstance (VDict cls items) typ = bool_decide (T_dict = typ).
Proof. now apply (isinstance_class_of _ T_dict cls). Qed.

Create Rewrite HintDb isinstance.
#[global] Hint Rewrite isinstance_VInt isinstance_VFloat isinstance_VStr
  isinstance_VList isinstance_VTuple isinstance_VDict : isinstance.

(** Decide which handler a value of known shape goes to. *)
Ltac dispatch :=
  autorewrite with isinstance;
  repeat match goal with
  | |- context [@bool_decide (@eq builtin_type ?a ?b) ?d] =>
      let v := eval vm_compute in (@bool_decide (a = b) d) in
      change (@bool_decide (a = b) d) with v
  end; cbv iota.

Section PartialCompareFacts.

Variable repr : pyval -> string.
Variable approx : spec_float -> spec_float -> bool.

Local Abbreviation pc := (partial_compare repr approx).

Lemma partial_compare_unfold val1 val2 :
  pc val1 val2
  = if is_Ellipsis val2 then Some (Outcome None)
    else if bool_decide (type_of val1 <> type_of val2) then
      Some (Outcome (Some (different_types val1 val2)))
    else if isinstance val2 T_dict then
      match val2 with
      | VDict _ items2 => _partial_compare_dict repr pc val1 items2
      | _ => None
      end
    else if isinstance val2 T_list then
      match val2 with
      | VList _ items2 => _partial_compare_list pc val1 items2
      | _ => None
      end
    else if isinstance val2 T_float then
      _partial_compare_float repr approx val1 val2
    else if isinstance val2 T_str then _partial_compare_str repr val1 val2
    else _partial_compare_eq repr val1 val2.
Proof. destruct val2; reflexivity. Qed.

Lemma partial_compare_Ellipsis val1 : pc val1 VEllipsis = Some (Outcome None).
Proof. reflexivity. Qed.

Lemma partial_compare_different_types val1 val2 :
  is_Ellipsis val2 = false ->
  type_of val1 <> type_of val2 ->
  pc val1 val2 = Some (Outcome (Some (different_types val1 val2))).
Proof.
  intros He Ht. rewrite partial_compare_unfold, He.
  now rewrite bool_decide_eq_true_2.
Qed.

Lemma partial_compare_same_type val1 val2 :
  is_Ellipsis val2 = false ->
  type_of val1 = type_of val2 ->
  pc val1 val2
  = if isinstance val2 T_dict then
      match val2 with
      | VDict _ items2 => _partial_compare_dict repr pc val1 items2
      | _ => None
      end
    else if isinstance val2 T_list then
      match val2 with
      | VList _ items2 => _partial_compare_list pc val1 items2
      | _ => None
      end
    else if isinstance val2 T_float then
      _partial_compare_float repr approx val1 val2
    else if isinstance val2 T_str then _partial_compare_str repr val1 val2
    else _partial_compare_eq repr val1 val2.
Proof.
  intros He Ht. rewrite partial_compare_unfold, He.
  rewrite bool_decide_eq_false_2; [reflexivity | intros H; now apply H].
Qed.

Lemma partial_compare_dict cls items1 items2 :
  pc (VDict cls items1) (VDict cls items2)
  = _partial_compare_dict repr pc (VDict cls items1) items2.
Proof.
  rewrite partial_compare_same_type by reflexivity. now dispatch.
Qed.

Lemma partial_compare_list cls items1 items2 :
  pc (VList cls items1) (VList cls items2)
  = _partial_compare_list pc (VList cls items1) items2.
Proof.
  rewrite partial_compare_same_type by reflexivity. now dispatch.
Qed.

Lemma partial_compare_float cls x1 x2 :
  pc (VFloat cls x1) (VFloat cls x2)
  = _partial_compare_float repr approx (VFloat cls x1) (VFloat cls x2).
Proof.
  rewrite partial_compare_same_type by reflexivity. now dispatch.
Qed.

Lemma partial_compare_str cls s1 s2 :
  pc (VStr cls s1) (VStr cls s2)
  = _partial_compare_str repr (VStr cls s1) (VStr cls s2).
Proof.
  rewrite partial_compare_same_type by reflexivity. now dispatch.
Qed.

(** *** The loop over the items of two lists *)

Lemma zip_compare_cons item1 rest1 item2 rest2 :
  zip_compare pc (item1 :: rest1) (item2 :: rest2)
  = outcome ← pc item1 item2;
    if negb (outcome_bool outcome) then Some outcome
    else zip_compare pc rest1 rest2.
Proof. reflexivity. Qed.

Lemma zip_compare_nil_l items2 : zip_compare pc [] items2 = Some (Outcome None).
Proof. now destruct items2. Qed.

Lemma zip_compare_success items2 : forall items1,
  zip_compare pc items1 items2 = Some (Outcome None)
  <-> forall i item1 item2,
        items1 !! i = Some item1 -> items2 !! i = Some item2 ->
        pc item1 item2 = Some (Outcome None).
Proof.
  induction items2 as [|item2 rest2 IH]; intros [|item1 rest1];
    try (split; [intros _ i ? ? H1 H2; destruct i; discriminate
                | reflexivity]).
  rewrite zip_compare_cons. split.
  - intros H i x1 x2 H1 H2.
    destruct (pc item1 item2) as [o|] eqn:Ho; [|discriminate].
    cbn in H. destruct (outcome_bool o) eqn:Hb; cbn in H.
    + apply outcome_bool_true in Hb as ->.
      destruct i as [|i]; cbn in H1, H2; [congruence|].
      eapply IH; eauto.
    + injection H as ->. discriminate Hb.
  - intros H. rewrite (H 0 item1 item2) by reflexivity. cbn.
    apply IH. intros i x1 x2 H1 H2. now apply (H (S i)).
Qed.

(** The first pair of items that does not compare decides the outcome. *)
Lemma zip_compare_first_failure i : forall items1 items2 item1 item2 outcome,
  items1 !! i = Some item1 -> items2 !! i = Some item2 ->
  pc item1 item2 = Some outcome -> outcome_bool outcome = false ->
  (forall j x1 x2, j < i -> items1 !! j = Some x1 -> items2 !! j = Some x2 ->
                   pc x1 x2 = Some (Outcome None)) ->
  zip_compare pc items1 items2 = Some outcome.
Proof.
  induction i as [|i IH];
    intros [|x1 l1] [|x2 l2] item1 item2 o H1 H2 Ho Hb Hlt;
    try discriminate; rewrite zip_compare_cons.
  - cbn in H1, H2. injection H1 as ->. injection H2 as ->.
    rewrite Ho. cbn. now rewrite Hb.
  - rewrite (Hlt 0 x1 x2) by (auto; lia). cbn.
    eapply IH; eauto. intros j y1 y2 Hj. apply (Hlt (S j)). lia.
Qed.

Lemma zip_compare_take items2 : forall items1,
  zip_compare pc (take (length items2) items1) items2
  = zip_compare pc items1 items2.
Proof.
  induction items2 as [|item2 rest2 IH]; intros [|item1 rest1];
    try reflexivity.
  cbn [length take]. rewrite !zip_compare_cons.
  destruct (pc item1 item2) as [o|]; [|reflexivity]. cbn.
  destruct (outcome_bool o); cbn; [apply IH | reflexivity].
Qed.

Lemma zip_compare_total items2 :
  Forall (fun val2 => forall val1, is_Some (pc val1 val2)) items2 ->
  forall items1, is_Some (zip_compare pc items1 items2).
Proof.
  induction 1 as [|item2 rest2 Hitem _ IH]; intros [|item1 rest1];
    try (eexists; reflexivity).
  rewrite zip_compare_cons. destruct (Hitem item1) as [o ->]. cbn.
  destruct (outcome_bool o); cbn; [apply IH | eauto].
Qed.

Lemma zip_compare_insert_Ellipsis items2 : forall items1 i item1,
  items2 !! i = Some VEllipsis ->
  zip_compare pc (<[i:=item1]> items1) items2 = zip_compare pc items1 items2.
Proof.
  induction items2 as [|item2 rest2 IH]; intros [|x1 rest1] i item1 Hi;
    try reflexivity.
  destruct i as [|i]; cbn in Hi.
  - injection Hi as ->. cbn [insert list_insert].
    now rewrite !zip_compare_cons, !partial_compare_Ellipsis.
  - cbn [insert list_insert]. rewrite !zip_compare_cons.
    destruct (pc x1 item2) as [o|]; [|reflexivity]. cbn.
    destruct (outcome_bool o); cbn; [|reflexivity]. now apply IH.
Qed.

(** *** The loop over the items of the expected dict *)

Lemma dict_loop_cons cls items1 key item2 rest :
  _partial_compare_dict repr pc (VDict cls items1) ((key, item2) :: rest)
  = match dict_get key items1 with
    | None => Some (Outcome (Some (key_missing repr key)))
    | Some item1 =>
        outcome ← pc item1 item2;
        if negb (outcome_bool outcome) then Some outcome
        else _partial_compare_dict repr pc (VDict cls items1) rest
    end.
Proof. reflexivity. Qed.

Lemma dict_loop_success cls items1 items2 :
  _partial_compare_dict repr pc (VDict cls items1) items2
  = Some (Outcome None)
  <-> forall key item2,
        (key, item2) ∈ items2 ->
        exists item1, dict_get key items1 = Some item1
                      /\ pc item1 item2 = Some (Outcome None).
Proof.
  induction items2 as [|[key item2] rest IH].
  - split; [intros _ ? ? H; now apply elem_of_nil in H | reflexivity].
  - rewrite dict_loop_cons. split.
    + intros H k v2 Hin.
      destruct (dict_get key items1) as [item1|] eqn:Hget; [|discriminate].
      destruct (pc item1 item2) as [o|] eqn:Ho; [|discriminate].
      cbn in H. destruct (outcome_bool o) eqn:Hb; cbn in H.
      * apply outcome_bool_true in Hb as ->.
        apply elem_of_cons in Hin as [[= -> ->]|Hin]; [eauto|].
        now apply IH.
      * injection H as ->. discriminate Hb.
    + intros H.
      destruct (H key item2) as (item1 & -> & ->); [left|]. cbn.
      apply IH. intros k v2 Hin. apply H. now right.
Qed.

(** The loop returns at the first key of the expected dict that is
    missing or whose values do not compare; the items after it are not
    looked at. *)
Lemma dict_loop_skip cls items1 before : forall rest,
  (forall key item2,
     (key, item2) ∈ before ->
     exists item1, dict_get key items1 = Some item1
                   /\ pc item1 item2 = Some (Outcome None)) ->
  _partial_compare_dict repr pc (VDict cls items1) (before ++ rest)
  = _partial_compare_dict repr pc (VDict cls items1) rest.
Proof.
  induction before as [|[key item2] before IH]; intros rest H;
    [reflexivity|].
  cbn [app]. rewrite dict_loop_cons.
  destruct (H key item2) as (item1 & -> & ->); [left|]. cbn.
  apply IH. intros k v2 Hin. apply H. now right.
Qed.

(** The outcome depends on the actual dict only through the outcomes of
    the values it holds under the keys of the expected dict. *)
Lemma dict_loop_agree cls cls' items1 items1' items2 :
  (forall key item2,
     (key, item2) ∈ items2 ->
     match dict_get key items1', dict_get key items1 with
     | Some item1', Some item1 => pc item1' item2 = pc item1 item2
     | None, None => True
     | _, _ => False
     end) ->
  _partial_compare_dict repr pc (VDict cls' items1') items2
  = _partial_compare_dict repr pc (VDict cls items1) items2.
Proof.
  induction items2 as [|[key item2] rest IH]; intros H; [reflexivity|].
  rewrite !dict_loop_cons. pose proof (H key item2 ltac:(left)) as Hk.
  destruct (dict_get key items1') as [item1'|],
           (dict_get key items1) as [item1|]; try done.
  rewrite Hk. destruct (pc item1 item2) as [o|]; [|reflexivity]. cbn.
  destruct (outcome_bool o); cbn; [|reflexivity].
  apply IH. intros k v2 Hin. apply (H k v2). now right.
Qed.

Lemma dict_loop_total cls items1 items2 :
  Forall (fun kv => (forall val1, is_Some (pc val1 kv.1))
                    /\ (forall val1, is_Some (pc val1 kv.2))) items2 ->
  is_Some (_partial_compare_dict repr pc (VDict cls items1) items2).
Proof.
  induction 1 as [|[key item2] rest [_ Hitem] _ IH];
    [eexists; reflexivity|].
  rewrite dict_loop_cons.
  destruct (dict_get key items1) as [item1|]; [|eauto].
  destruct (Hitem item1) as [o Ho]. cbn in Ho. rewrite Ho. cbn.
  destruct (outcome_bool o); cbn; eauto.
Qed.

(** *** [partial_compare] always returns an outcome *)

Lemma partial_compare_total val2 : forall val1, is_Some (pc val1 val2).
Proof.
  induction val2 as [| |b|cls n|cls x|cls s|cls items H|cls items H
                     |cls items H] using pyval_ind;
    intros val1; rewrite partial_compare_unfold; cbn [is_Ellipsis];
    try (eexists; reflexivity);
    (case_bool_decide as Ht; [eauto|]); dispatch;
    try (unfold _partial_compare_eq; destruct (py_eq _ _); eauto; fail).
  - apply same_type_float in Ht as [x1 ->].
    cbn. destruct (approx x1 x); eauto.
  - apply same_type_str in Ht as [s1 ->].
    cbn. rewrite pattern_match_eq. cbn.
    destruct (Re.match_here _ _ _); eauto.
  - apply same_type_list in Ht as [items1 ->].
    unfold _partial_compare_list.
    destruct (Nat.ltb (length items1) (length items)); [eauto|].
    now apply zip_compare_total.
  - apply same_type_dict in Ht as [items1 ->]. now apply dict_loop_total.
Qed.

(** An outcome is a success or carries a message. *)
Lemma partial_compare_fails val1 val2 :
  pc val1 val2 <> Some (Outcome None)
  <-> exists msg, pc val1 val2 = Some (Outcome (Some msg)).
Proof.
  destruct (partial_compare_total val2 val1) as [[[msg|]] ->].
  - split; [eauto | discriminate].
  - split; [congruence | intros [? [=]]].
Qed.

End PartialCompareFacts.

Lemma dict_get_other key key' item before after :
  py_eq key key' = false ->
  dict_get key (before ++ (key', item) :: after)
  = dict_get key (before ++ after).
Proof.
  intros Hne. induction before as [|[k v] before IH]; cbn.
  - now rewrite Hne.
  - now rewrite IH.
Qed.

Lemma dict_get_middle key key' item before after :
  dict_get key (before ++ (key', item) :: after)
  = match dict_get key before with
    | Some found => Some found
    | None => if py_eq key key' then Some item else dict_get key after
    end.
Proof.
  induction before as [|[k v] before IH]; cbn; [reflexivity|].
  destruct (py_eq key k); [reflexivity | exact IH].
Qed.

Lemma is_Ellipsis_false val : val <> VEllipsis <-> is_Ellipsis val = false.
Proof. destruct val; cbn; split; congruence. Qed.

Section PartialCompareClaims.

Variable repr : pyval -> string.
Variable approx : spec_float -> spec_float -> bool.

(** C2: for two dicts, the comparison succeeds only if every key of the
    expected dict is in the actual dict and the two values under it
    compare (and, the two dicts being of one type, it succeeds whenever
    they all do); a key that only the actual dict has does not change the
    outcome; a key that only the expected dict has gives a failing
    outcome. *)
Theorem partial_compare_dict_keys cls1 cls2 items1 items2 :
  (partial_compare repr approx (VDict cls1 items1) (VDict cls2 items2)
   = success ->
   forall key item2,
     (key, item2) ∈ items2 ->
     exists item1,
       dict_get key items1 = Some item1
       /\ partial_compare repr approx item1 item2 = success)
  /\ (cls1 = cls2 ->
      (forall key item2,
         (key, item2) ∈ items2 ->
         exists item1,
           dict_get key items1 = Some item1
           /\ partial_compare repr approx item1 item2 = success) ->
      partial_compare repr approx (VDict cls1 items1) (VDict cls2 items2)
      = success)
  /\ (forall key item before after,
        items1 = before ++ after ->
        (forall key2 item2,
           (key2, item2) ∈ items2 -> py_eq key2 key = false) ->
        partial_compare repr approx
          (VDict cls1 (before ++ (key, item) :: after)) (VDict cls2 items2)
        = partial_compare repr approx (VDict cls1 items1)
            (VDict cls2 items2))
  /\ (forall key item2,
        (key, item2) ∈ items2 -> dict_get key items1 = None ->
        exists msg,
          partial_compare repr approx (VDict cls1 items1)
            (VDict cls2 items2)
          = failure msg).
Proof.
  unfold success, failure.
  destruct (decide (cls1 = cls2)) as [<-|Hcls].
  - repeat split.
    + rewrite partial_compare_dict. apply dict_loop_success.
    + intros _. rewrite partial_compare_dict. apply dict_loop_success.
    + intros key item before after -> Hnew.
      rewrite !partial_compare_dict. apply dict_loop_agree.
      intros key2 item2 Hin.
      rewrite (dict_get_other key2 key) by eauto.
      now destruct (dict_get key2 (before ++ after)).
    + intros key item2 Hin Hget. apply partial_compare_fails.
      rewrite partial_compare_dict, dict_loop_success. intros Hall.
      destruct (Hall key item2 Hin) as (item1 & Hsome & _). congruence.
  - assert (forall d1 d2,
              partial_compare repr approx (VDict cls1 d1) (VDict cls2 d2)
              = Some (Outcome (Some
                  (different_types (VDict cls1 d1) (VDict cls2 d2)))))
      as Hdiff.
    { intros d1 d2. apply partial_compare_different_types; [reflexivity|].
      destruct cls1, cls2; cbn; congruence. }
    repeat split.
    + rewrite Hdiff. discriminate.
    + congruence.
    + intros. now rewrite !Hdiff.
    + intros. rewrite Hdiff. eauto.
Qed.

(** C3: for two lists of one type, a shorter actual list gives a failing
    outcome (also when the types differ);
    otherwise the comparison succeeds exactly when the items at every
    position of the expected list compare, and the items of the actual
    list past the length of the expected list play no part. *)
Theorem partial_compare_list_prefix cls items1 items2 :
  (forall cls1,
     length items1 < length items2 ->
     exists msg,
       partial_compare repr approx (VList cls1 items1) (VList cls items2)
       = failure msg)
  /\ (length items1 < length items2 ->
      partial_compare repr approx (VList cls items1) (VList cls items2)
      = failure "Second list is longer than first list")
  /\ (length items2 <= length items1 ->
      partial_compare repr approx (VList cls items1) (VList cls items2)
      = success
      <-> forall i item2,
            items2 !! i = Some item2 ->
            exists item1,
              items1 !! i = Some item1
              /\ partial_compare repr approx item1 item2 = success)
  /\ (length items2 <= length items1 ->
      partial_compare repr approx (VList cls items1) (VList cls items2)
      = partial_compare repr approx
          (VList cls (take (length items2) items1)) (VList cls items2)).
Proof.
  unfold success, failure.
  assert (length items1 < length items2 ->
          partial_compare repr approx (VList cls items1) (VList cls items2)
          = Some (Outcome (Some "Second list is longer than first list")))
    as Hshort.
  { intros Hlen. rewrite partial_compare_list. unfold _partial_compare_list.
    now rewrite (proj2 (Nat.ltb_lt _ _) Hlen). }
  split; [|split; [exact Hshort|split]].
  - intros cls1 Hlen. destruct (decide (cls1 = cls)) as [->|Hcls]; [eauto|].
    rewrite partial_compare_different_types; [eauto | reflexivity |].
    destruct cls1, cls; cbn; congruence.
  - intros Hlen. rewrite partial_compare_list. unfold _partial_compare_list.
    rewrite (proj2 (Nat.ltb_ge _ _) Hlen), zip_compare_success. split.
    + intros Hall i item2 H2.
      destruct (lookup_lt_is_Some_2 items1 i) as [item1 H1]; [|eauto].
      apply lookup_lt_Some in H2. lia.
    + intros Hall i item1 item2 H1 H2.
      destruct (Hall i item2 H2) as (item1' & H1' & Hpc). congruence.
  - intros Hlen. rewrite !partial_compare_list. unfold _partial_compare_list.
    rewrite length_take, Nat.min_l by lia.
    rewrite (proj2 (Nat.ltb_ge _ _) Hlen).
    rewrite (proj2 (Nat.ltb_ge (length items2) (length items2)))
      by reflexivity.
    now rewrite zip_compare_take.
Qed.

(** C4: when the expected value is not the ellipsis and the two types
    differ, the outcome is a failure, whatever [==] says of the two
    values; this holds for every call, so a mismatch under a list
    position or a dict key makes the enclosing comparison fail too.
    Comparing [1] with ["1"] fails, and so does [True] with [1]. *)
Theorem partial_compare_type_mismatch :
  (forall val1 val2,
     val2 <> VEllipsis -> type_of val1 <> type_of val2 ->
     partial_compare repr approx val1 val2
     = failure (different_types val1 val2))
  /\ (forall val1 val2,
        type_mismatch_inside val1 val2 ->
        exists msg, partial_compare repr approx val1 val2 = failure msg)
  /\ partial_compare repr approx (VInt None 1) (VStr None "1")
     = failure "Different types (int, str) -> False"
  /\ py_eq (VBool true) (VInt None 1) = true
  /\ partial_compare repr approx (VBool true) (VInt None 1)
     = failure "Different types (bool, int) -> False".
Proof.
  unfold failure.
  assert (forall val1 val2,
            val2 <> VEllipsis -> type_of val1 <> type_of val2 ->
            partial_compare repr approx val1 val2
            = Some (Outcome (Some (different_types val1 val2))))
    as Htop.
  { intros val1 val2 He Ht. apply partial_compare_different_types; [|done].
    now apply is_Ellipsis_false. }
  split; [exact Htop|]. split; [|split; [|split]]; try reflexivity.
  induction 1 as [val1 val2 He Ht
                 |cls items1 items2 i item1 item2 H1 H2 _ [msg IH]
                 |cls items1 items2 key item1 item2 Hin Hget _ [msg IH]].
  - rewrite Htop by assumption. eauto.
  - apply partial_compare_fails. rewrite partial_compare_list.
    unfold _partial_compare_list.
    destruct (Nat.ltb (length items1) (length items2)); [discriminate|].
    rewrite zip_compare_success. intros Hall.
    specialize (Hall i item1 item2 H1 H2). congruence.
  - apply partial_compare_fails.
    rewrite partial_compare_dict, dict_loop_success. intros Hall.
    destruct (Hall key item2 Hin) as (item1' & Hget' & Hpc). congruence.
Qed.

(** C5: with the ellipsis as the expected value the outcome is a success
    for every actual value; so, at a list position or under a dict key
    where the expected value is the ellipsis, the actual value can be
    replaced by any other without changing the outcome. *)
Theorem partial_compare_ellipsis_matches :
  (forall val1, partial_compare repr approx val1 VEllipsis = success)
  /\ (forall cls items1 items2 i item1,
        items2 !! i = Some VEllipsis ->
        partial_compare repr approx (VList cls (<[i:=item1]> items1))
          (VList cls items2)
        = partial_compare repr approx (VList cls items1)
            (VList cls items2))
  /\ (forall cls before after key item1 item1' items2,
        (forall key2 item2,
           (key2, item2) ∈ items2 -> py_eq key2 key = true ->
           item2 = VEllipsis) ->
        partial_compare repr approx
          (VDict cls (before ++ (key, item1') :: after)) (VDict cls items2)
        = partial_compare repr approx
            (VDict cls (before ++ (key, item1) :: after))
            (VDict cls items2)).
Proof.
  split; [reflexivity|]. split.
  - intros cls items1 items2 i item1 Hi. rewrite !partial_compare_list.
    unfold _partial_compare_list. rewrite length_insert.
    destruct (Nat.ltb (length items1) (length items2)); [reflexivity|].
    now apply zip_compare_insert_Ellipsis.
  - intros cls before after key item1 item1' items2 Hkey.
    rewrite !partial_compare_dict. apply dict_loop_agree.
    intros key2 item2 Hin. rewrite !dict_get_middle.
    destruct (dict_get key2 before); [reflexivity|].
    destruct (py_eq key2 key) eqn:Heq.
    + now rewrite (Hkey key2 item2 Hin Heq).
    + now destruct (dict_get key2 after).
Qed.

(** C6: the outcome holds an error that is [None] or a string, and is
    true exactly when the error is [None]; [partial_compare] always
    returns one; inside a list or a dict the outcome of the first item
    that does not compare, or the message for the first missing key, is
    the outcome of the whole comparison, whatever comes after it. *)
Theorem partial_compare_first_mismatch :
  (forall outcome, outcome_bool outcome = true <-> error outcome = None)
  /\ (forall val1 val2,
        exists outcome, partial_compare repr approx val1 val2 = Some outcome)
  /\ (forall cls items1 items2 i item1 item2 outcome,
        length items2 <= length items1 ->
        items1 !! i = Some item1 -> items2 !! i = Some item2 ->
        partial_compare repr approx item1 item2 = Some outcome ->
        outcome_bool outcome = false ->
        (forall j x1 x2,
           j < i -> items1 !! j = Some x1 -> items2 !! j = Some x2 ->
           partial_compare repr approx x1 x2 = success) ->
        partial_compare repr approx (VList cls items1) (VList cls items2)
        = Some outcome)
  /\ (forall cls items1 before key item2 after,
        (forall key' item2',
           (key', item2') ∈ before ->
           exists item1',
             dict_get key' items1 = Some item1'
             /\ partial_compare repr approx item1' item2' = success) ->
        (dict_get key items1 = None ->
         partial_compare repr approx (VDict cls items1)
           (VDict cls (before ++ (key, item2) :: after))
         = failure (key_missing repr key))
        /\ (forall item1 outcome,
              dict_get key items1 = Some item1 ->
              partial_compare repr approx item1 item2 = Some outcome ->
              outcome_bool outcome = false ->
              partial_compare repr approx (VDict cls items1)
                (VDict cls (before ++ (key, item2) :: after))
              = Some outcome)).
Proof.
  unfold success, failure. split; [|split; [|split]].
  - intros [[msg|]]; cbn; split; congruence.
  - intros val1 val2. apply partial_compare_total.
  - intros cls items1 items2 i item1 item2 o Hlen H1 H2 Ho Hb Hlt.
    rewrite partial_compare_list. unfold _partial_compare_list.
    rewrite (proj2 (Nat.ltb_ge _ _) Hlen).
    eapply zip_compare_first_failure; eauto.
  - intros cls items1 before key item2 after Hbefore.
    rewrite partial_compare_dict, dict_loop_skip, dict_loop_cons
      by assumption.
    split.
    + now intros ->.
    + intros item1 o -> -> Hb. cbn. now rewrite Hb.
Qed.

(** C7: two floats of one type are compared by the approximate equality
    of pytest, not by [==]: the outcome is a success whenever the actual
    value is approximately equal to the expected one, and a failure with
    a message otherwise. *)
Theorem partial_compare_float_approx cls x1 x2 :
  (approx x1 x2 = true ->
   partial_compare repr approx (VFloat cls x1) (VFloat cls x2) = success)
  /\ (approx x1 x2 = false ->
      partial_compare repr approx (VFloat cls x1) (VFloat cls x2)
      = failure (repr (VFloat cls x1) +:+ " != " +:+ repr (VFloat cls x2)
                 +:+ " (float comparison)")).
Proof.
  rewrite partial_compare_float. cbn. split; now intros ->.
Qed.

(** C9, as the code has it: when the expected value is not the ellipsis,
    the two values are of one type, and the expected value is not an
    instance of [dict], [list], [float] or [str] (its type is none of
    them and no subclass of them), the outcome is a success if
    [val1 == val2] and the message ["<val1> != <val2>"] otherwise. *)
Theorem partial_compare_eq_fallback val1 val2 :
  val2 <> VEllipsis ->
  type_of val1 = type_of val2 ->
  isinstance val2 T_dict = false ->
  isinstance val2 T_list = false ->
  isinstance val2 T_float = false ->
  isinstance val2 T_str = false ->
  partial_compare repr approx val1 val2
  = if py_eq val1 val2 then success
    else failure (repr val1 +:+ " != " +:+ repr val2).
Proof.
  intros He Ht Hd Hl Hf Hs. apply is_Ellipsis_false in He.
  now rewrite partial_compare_same_type, Hd, Hl, Hf, Hs by assumption.
Qed.

End PartialCompareClaims.

(** ** Concrete inputs *)

Example float_sum_rounds :
  SFadd prec emax f0_1 f0_2 = S754_finite false 0x13333333333334 (-54).
Proof. vm_compute. reflexivity. Qed.

(** Characters that mean something in a regular expression are literal in
    a pattern. *)
Example pattern_match_dot :
  pattern_match "a.b" "axb" = Some false
  /\ pattern_match "a.b" "a.b" = Some true
  /\ pattern_match "f(x)*[y]" "f(x) = [y]" = Some true
  /\ pattern_match "a\*" "a\b" = Some true.
Proof. repeat split; vm_compute; reflexivity. Qed.

(** A comparison that uses every handler: a subset of the keys, a prefix of
    a list, a pattern, an approximate float and an ignored value. *)
Example partial_compare_nested repr :
  partial_compare repr Pytest.approx
    (py_dict
       [(py_str "url", py_str "http://localhost:1234/data/hello.txt");
        (py_str "zoom", py_float (SFadd prec emax f0_1 f0_2));
        (py_str "history", py_list [py_int 1; py_int 2; py_int 3]);
        (py_str "active", VBool true);
        (py_str "title", VNone)])
    (py_dict
       [(py_str "url", py_str "http://localhost:*/data/*");
        (py_str "zoom", py_float f0_3);
        (py_str "history", py_list [py_int 1; VEllipsis]);
        (py_str "active", VBool true)])
  = success.
Proof. vm_compute. reflexivity. Qed.

(** The first mismatch is the one that is reported. *)
Example partial_compare_reports_first repr :
  partial_compare repr Pytest.approx
    (py_dict [(py_str "a", py_int 1); (py_str "b", py_str "2")])
    (py_dict [(py_str "a", py_str "1"); (py_str "b", py_int 2)])
  = failure "Different types (int, str) -> False".
Proof. vm_compute. reflexivity. Qed.

(** C2 at [{"a": 1, "b": [1, 2]}] against [{"b": [1]}] (every expected key
    is there and compares) and against [{"c": 3}] (a missing key). *)
Lemma partial_compare_dict_keys_witness :
  let actual :=
    [(py_str "a", py_int 1); (py_str "b", py_list [py_int 1; py_int 2])] in
  (py_str "c", py_int 3) ∈ [(py_str "c", py_int 3)]
  /\ dict_get (py_str "c") actual = None
  /\ (forall repr approx,
        (exists msg,
           partial_compare repr approx (py_dict actual)
             (py_dict [(py_str "c", py_int 3)])
           = failure msg)
        /\ partial_compare repr approx (py_dict actual)
             (py_dict [(py_str "b", py_list [py_int 1])])
           = success).
Proof.
  intros actual.
  assert ((py_str "c", py_int 3) ∈ [(py_str "c", py_int 3)]) as Hin
    by (apply elem_of_cons; left; reflexivity).
  assert (dict_get (py_str "c") actual = None) as Hget by reflexivity.
  split; [exact Hin|]. split; [exact Hget|]. intros repr approx. split.
  - exact (proj2 (proj2 (proj2
      (partial_compare_dict_keys repr approx None None actual
         [(py_str "c", py_int 3)]))) _ _ Hin Hget).
  - apply (proj1 (proj2
      (partial_compare_dict_keys repr approx None None actual
         [(py_str "b", py_list [py_int 1])]))); [reflexivity|].
    intros key item2 Hkey. apply list_elem_of_singleton in Hkey.
    injection Hkey as -> ->.
    exists (py_list [py_int 1; py_int 2]). split; reflexivity.
Defined.

(** C3 at [[1, 2, 3]] against [[1, ...]], and at [[1]] against [[1, 2]]. *)
Lemma partial_compare_list_prefix_witness :
  length [py_int 1; VEllipsis] <= length [py_int 1; py_int 2; py_int 3]
  /\ length [py_int 1] < length [py_int 1; py_int 2]
  /\ (forall repr approx,
        partial_compare repr approx
          (py_list [py_int 1; py_int 2; py_int 3])
          (py_list [py_int 1; VEllipsis])
        = partial_compare repr approx
            (py_list (take 2 [py_int 1; py_int 2; py_int 3]))
            (py_list [py_int 1; VEllipsis])
        /\ partial_compare repr approx (py_list [py_int 1])
             (py_list [py_int 1; py_int 2])
           = failure "Second list is longer than first list").
Proof.
  assert (length [py_int 1; VEllipsis]
          <= length [py_int 1; py_int 2; py_int 3]) as Hle by (cbn; lia).
  assert (length [py_int 1] < length [py_int 1; py_int 2]) as Hlt
    by (cbn; lia).
  split; [exact Hle|]. split; [exact Hlt|]. intros repr approx. split.
  - exact (proj2 (proj2 (proj2
      (partial_compare_list_prefix repr approx None
         [py_int 1; py_int 2; py_int 3] [py_int 1; VEllipsis]))) Hle).
  - exact (proj1 (proj2
      (partial_compare_list_prefix repr approx None
         [py_int 1] [py_int 1; py_int 2])) Hlt).
Defined.

(** C4 at [1.0] against [1]: equal by [==], of different types. *)
Lemma partial_compare_type_mismatch_witness :
  py_int 1 <> VEllipsis
  /\ type_of (py_float f1_0) <> type_of (py_int 1)
  /\ py_eq (py_float f1_0) (py_int 1) = true
  /\ (forall repr approx,
        partial_compare repr approx (py_float f1_0) (py_int 1)
        = failure "Different types (float, int) -> False").
Proof.
  assert (py_int 1 <> VEllipsis) as He by discriminate.
  assert (type_of (py_float f1_0) <> type_of (py_int 1)) as Ht
    by discriminate.
  split; [exact He|]. split; [exact Ht|]. split; [reflexivity|].
  intros repr approx.
  exact (proj1 (partial_compare_type_mismatch repr approx) _ _ He Ht).
Defined.

(** C5 at [[1, "x"]] against [[1, ...]]: the second item can be anything. *)
Lemma partial_compare_ellipsis_matches_witness :
  [py_int 1; VEllipsis] !! 1 = Some VEllipsis
  /\ (forall repr approx item1,
        partial_compare repr approx
          (py_list (<[1:=item1]> [py_int 1; py_str "x"]))
          (py_list [py_int 1; VEllipsis])
        = partial_compare repr approx (py_list [py_int 1; py_str "x"])
            (py_list [py_int 1; VEllipsis])).
Proof.
  split; [reflexivity|]. intros repr approx item1.
  apply (proj1 (proj2 (partial_compare_ellipsis_matches repr approx))).
  reflexivity.
Defined.

(** C6 at [[1, "x", 5]] against [[1, "y", 6]]: the outcome is the one of
    ["x"] against ["y"]; the mismatch of [5] and [6] is not reported. *)
Lemma partial_compare_first_mismatch_witness :
  let items1 := [py_int 1; py_str "x"; py_int 5] in
  let items2 := [py_int 1; py_str "y"; py_int 6] in
  length items2 <= length items1
  /\ items1 !! 1 = Some (py_str "x") /\ items2 !! 1 = Some (py_str "y")
  /\ (forall repr approx,
        partial_compare repr approx (py_list items1) (py_list items2)
        = failure (repr (py_str "x") +:+ " != " +:+ repr (py_str "y")
                   +:+ " (pattern matching)")).
Proof.
  intros items1 items2.
  assert (length items2 <= length items1) as Hlen by (cbn; lia).
  split; [exact Hlen|]. split; [reflexivity|]. split; [reflexivity|].
  intros repr approx.
  refine (proj1 (proj2 (proj2
            (partial_compare_first_mismatch repr approx)))
            None items1 items2 1 (py_str "x") (py_str "y") _
            Hlen eq_refl eq_refl eq_refl eq_refl _).
  intros j x1 x2 Hj. assert (j = 0) as -> by lia.
  intros [= <-] [= <-]. reflexivity.
Defined.

(** C7 with pytest's [approx] at [0.1 + 0.2] against [0.3]: not equal by
    [==], approximately equal, and the outcome is a success. *)
Lemma partial_compare_float_approx_witness :
  let actual := SFadd prec emax f0_1 f0_2 in
  Pytest.approx actual f0_3 = true
  /\ py_eq (py_float actual) (py_float f0_3) = false
  /\ (forall repr,
        partial_compare repr Pytest.approx (py_float actual) (py_float f0_3)
        = success).
Proof.
  intros actual.
  assert (Pytest.approx actual f0_3 = true) as Happrox
    by (vm_compute; reflexivity).
  split; [exact Happrox|]. split; [vm_compute; reflexivity|]. intros repr.
  exact (proj1 (partial_compare_float_approx repr Pytest.approx None
                  actual f0_3) Happrox).
Defined.

(** The amended C9 at the tuples [(1, True)] and [(1, 1)], equal by [==]. *)
Lemma partial_compare_eq_fallback_witness :
  let val1 := VTuple None [py_int 1; VBool true] in
  let val2 := VTuple None [py_int 1; py_int 1] in
  val2 <> VEllipsis /\ type_of val1 = type_of val2
  /\ isinstance val2 T_dict = false /\ isinstance val2 T_list = false
  /\ isinstance val2 T_float = false /\ isinstance val2 T_str = false
  /\ (forall repr approx,
        partial_compare repr approx val1 val2 = success).
Proof.
  intros val1 val2.
  assert (val2 <> VEllipsis) as He by discriminate.
  split; [exact He|]. repeat (split; [reflexivity|]). intros repr approx.
  exact (partial_compare_eq_fallback repr approx val1 val2 He
           eq_refl eq_refl eq_refl eq_refl eq_refl).
Defined.

(** C9 as stated fails on a subclass of [dict]: with
    [class MyDict(dict): pass], [MyDict(a=1, b=2)] and [MyDict(a=1)] are of
    one type, which is none of [dict], [list], [float] and [str]; they are
    not equal by [==], and yet the comparison succeeds, because the [dict]
    handler is chosen by [isinstance]. *)
Lemma partial_compare_subclass_not_eq :
  let val1 := VDict (Some "MyDict")
                [(py_str "a", py_int 1); (py_str "b", py_int 2)] in
  let val2 := VDict (Some "MyDict") [(py_str "a", py_int 1)] in
  val2 <> VEllipsis
  /\ type_of val1 = type_of val2
  /\ (type_of val2 ∉ [Builtin T_dict; Builtin T_list; Builtin T_float;
                       Builtin T_str])
  /\ py_eq val1 val2 = false
  /\ (forall repr approx,
        partial_compare repr approx val1 val2 = success).
Proof.
  intros val1 val2. split; [discriminate|]. split; [reflexivity|].
  split; [|split; [reflexivity|intros; reflexivity]].
  rewrite !elem_of_cons, elem_of_nil. intros [H|[H|[H|[H|[]]]]]; discriminate.
Qed.

(** ** The freeze script *)

Section FreezeFacts.

Import Freeze.

Variable os_path_join : list string -> string.
Variable write_git_file : step.
Variable setup : step.

Lemma cleanup_removes basedir fs :
  cleanup os_path_join (Some basedir) fs
  = (None, fs ∖ {[git_commit_id os_path_join basedir]}).
Proof.
  unfold cleanup, os_remove, os_path_exists.
  destruct (decide (git_commit_id os_path_join basedir ∈ fs)) as [Hin|Hin].
  - now rewrite !bool_decide_eq_true_2.
  - rewrite bool_decide_eq_false_2 by assumption.
    f_equal. apply set_eq. intros path.
    rewrite elem_of_difference, elem_of_singleton. split; [|now intros []].
    intros Hpath. split; [exact Hpath | now intros ->].
Qed.

(** C8, as the code has it: when [BASEDIR] is not [None], the file
    [BASEDIR/qutebrowser/git-commit-id] does not exist once the script is
    over, whether [write_git_file] and [setup] completed or one of them
    raised, and the script raises exactly what they raised; when
    [BASEDIR] is [None], the cleanup step changes nothing. *)
Theorem freeze_cleanup basedir fs :
  (git_commit_id os_path_join basedir
     ∉ (freeze os_path_join (Some basedir) write_git_file setup fs).2)
  /\ (freeze os_path_join (Some basedir) write_git_file setup fs).1
     = (seq write_git_file setup fs).1
  /\ freeze os_path_join None write_git_file setup fs
     = seq write_git_file setup fs.
Proof.
  unfold freeze, try_finally.
  destruct (seq write_git_file setup fs) as [raised fs'].
  rewrite cleanup_removes. cbn. split; [|split; reflexivity].
  rewrite elem_of_difference, elem_of_singleton. now intros [_ H].
Qed.

End FreezeFacts.

(** C8 as stated fails when [BASEDIR] is [None]: the file that
    [write_git_file] generated is still there after the script, whether
    [setup] completed or raised. *)
Lemma freeze_cleanup_skipped :
  let path := "qutebrowser/git-commit-id" in
  Freeze.freeze Freeze.posix_join None (Freeze.write_file path) Freeze.skip ∅
  = (None, {[path]})
  /\ Freeze.freeze Freeze.posix_join None (Freeze.write_file path)
       (Freeze.raise "SetupError") ∅
     = (Some "SetupError", {[path]})
  /\ path ∈ ({[path]} : gset string).
Proof.
  intros path. unfold Freeze.freeze, Freeze.try_finally, Freeze.seq,
    Freeze.write_file, Freeze.skip, Freeze.raise, Freeze.cleanup. cbn.
  rewrite (right_id_L ∅ (∪)).
  split; [reflexivity|]. split; [reflexivity|]. set_solver.
Qed.

(** * Further properties *)

(** ** [pattern_match]: how patterns compose *)

Lemma glob_matches_star_inv p v :
  glob_matches (String "*" p) v ->
  exists run rest, v = run +:+ rest /\ glob_matches p rest.
Proof.
  inversion 1 as [|c p' v' Hc _|p' run rest Hrest]; subst;
    [congruence | eauto].
Qed.

Lemma glob_matches_literal_inv c p v :
  c <> "*"%char -> glob_matches (String c p) v ->
  exists rest, v = String c rest /\ glob_matches p rest.
Proof.
  intros Hc. inversion 1 as [|c' p' v' _ Hrest|]; subst;
    [eauto | congruence].
Qed.

Lemma glob_matches_app p1 p2 v1 v2 :
  glob_matches p1 v1 -> glob_matches p2 v2 ->
  glob_matches (p1 +:+ p2) (v1 +:+ v2).
Proof.
  induction 1 as [|c p v Hc _ IH|p run v _ IH]; intros H2.
  - exact H2.
  - rewrite !append_cons. constructor; auto.
  - rewrite append_cons, append_assoc. constructor. auto.
Qed.

Lemma glob_matches_app_inv p1 : forall p2 v,
  glob_matches (p1 +:+ p2) v ->
  exists v1 v2, v = v1 +:+ v2 /\ glob_matches p1 v1 /\ glob_matches p2 v2.
Proof.
  induction p1 as [|c p1 IH]; intros p2 v H.
  - exists "", v. repeat split; [constructor | exact H].
  - rewrite append_cons in H. destruct (Ascii.eqb_spec c "*") as [->|Hc].
    + apply glob_matches_star_inv in H as (run & rest & -> & H).
      apply IH in H as (v1 & v2 & -> & H1 & H2).
      exists (run +:+ v1), v2. rewrite append_assoc.
      repeat split; [constructor|]; assumption.
    + apply glob_matches_literal_inv in H as (rest & -> & H); [|exact Hc].
      apply IH in H as (v1 & v2 & -> & H1 & H2).
      exists (String c v1), v2. rewrite append_cons.
      repeat split; [constructor|]; assumption.
Qed.

Lemma glob_matches_refl p : glob_matches p p.
Proof.
  induction p as [|c p IH]; [constructor|].
  destruct (Ascii.eqb_spec c "*") as [->|Hc].
  - apply (glob_star p "*" p IH).
  - now constructor.
Qed.

(** X1: a pattern, taken as a value, matches itself: a [*] in the value is
    taken by the [*] of the pattern. *)
Theorem pattern_match_itself pattern :
  pattern_match pattern pattern = Some true.
Proof. apply pattern_match_true, glob_matches_refl. Qed.

(** X2: matching is compositional: the concatenation of two patterns
    matches a value exactly when the value splits into a part the first
    pattern matches and a part the second one matches. *)
Theorem pattern_match_concat p1 p2 value :
  pattern_match (p1 +:+ p2) value = Some true
  <-> exists v1 v2,
        value = v1 +:+ v2
        /\ pattern_match p1 v1 = Some true
        /\ pattern_match p2 v2 = Some true.
Proof.
  rewrite pattern_match_true. split.
  - intros H. apply glob_matches_app_inv in H as (v1 & v2 & -> & H1 & H2).
    exists v1, v2. now rewrite !pattern_match_true.
  - intros (v1 & v2 & -> & H1 & H2). rewrite pattern_match_true in H1, H2.
    now apply glob_matches_app.
Qed.

Lemma glob_matches_any value : glob_matches "*" value.
Proof. rewrite <- (append_empty_r value). constructor. constructor. Qed.

Lemma glob_matches_concat p1 p2 v :
  glob_matches (p1 +:+ p2) v
  <-> exists v1 v2,
        v = v1 +:+ v2 /\ glob_matches p1 v1 /\ glob_matches p2 v2.
Proof.
  split; [apply glob_matches_app_inv|].
  intros (v1 & v2 & -> & H1 & H2). now apply glob_matches_app.
Qed.

(** X3: with a text [s] that has no [*], the pattern [s*] matches the
    values that start with [s], [*s] the values that end with [s], and
    [*s*] the values that contain [s]. *)
Theorem pattern_match_affix s value :
  has_star s = false ->
  (pattern_match (s +:+ "*") value = Some true
   <-> exists rest, value = s +:+ rest)
  /\ (pattern_match ("*" +:+ s) value = Some true
      <-> exists front, value = front +:+ s)
  /\ (pattern_match ("*" +:+ s +:+ "*") value = Some true
      <-> exists front rest, value = front +:+ s +:+ rest).
Proof.
  intros Hs. rewrite !pattern_match_true.
  assert (forall v, glob_matches s v <-> v = s) as Hlit
    by (intros v; now apply glob_matches_no_star).
  split; [|split].
  - rewrite glob_matches_concat. split.
    + intros (v1 & v2 & -> & H1 & _). apply Hlit in H1 as ->. eauto.
    + intros (rest & ->). exists s, rest.
      rewrite Hlit. auto using glob_matches_any.
  - rewrite glob_matches_concat. split.
    + intros (v1 & v2 & -> & _ & H2). apply Hlit in H2 as ->. eauto.
    + intros (front & ->). exists front, s.
      rewrite Hlit. auto using glob_matches_any.
  - rewrite glob_matches_concat. split.
    + intros (v1 & v2 & -> & _ & H2).
      apply glob_matches_concat in H2 as (v3 & v4 & -> & H3 & _).
      apply Hlit in H3 as ->. eauto.
    + intros (front & rest & ->). exists front, (s +:+ rest).
      split; [reflexivity|]. split; [apply glob_matches_any|].
      apply glob_matches_concat. exists s, rest.
      rewrite Hlit. auto using glob_matches_any.
Qed.

(** X3 at the text ["http://"]. *)
Lemma pattern_match_affix_witness :
  has_star "http://" = false
  /\ (pattern_match ("http://" +:+ "*") "http://localhost/" = Some true
      <-> exists rest, "http://localhost/" = "http://" +:+ rest).
Proof.
  split; [reflexivity|].
  exact (proj1 (pattern_match_affix "http://" "http://localhost/" eq_refl)).
Defined.

(** X4: a run of two [*] stands for one: wherever it is in a pattern, the
    values matched are the same. *)
Theorem pattern_match_double_star p1 p2 value :
  pattern_match (p1 +:+ "**" +:+ p2) value
  = pattern_match (p1 +:+ "*" +:+ p2) value.
Proof.
  assert (forall p v,
            pattern_match ("**" +:+ p) v = Some true
            <-> pattern_match ("*" +:+ p) v = Some true) as Hstar.
  { intros p v. rewrite !pattern_match_true. split.
    - intros H. apply glob_matches_star_inv in H as (run & rest & -> & H).
      apply glob_matches_star_inv in H as (run' & rest' & -> & H).
      rewrite <- append_assoc. now constructor.
    - intros H. apply glob_matches_star_inv in H as (run & rest & -> & H).
      apply (glob_star _ run). now apply (glob_star _ "" rest). }
  assert (pattern_match (p1 +:+ "**" +:+ p2) value = Some true
          <-> pattern_match (p1 +:+ "*" +:+ p2) value = Some true) as Hiff.
  { rewrite !pattern_match_true, !glob_matches_concat.
    split; intros (v1 & v2 & -> & H1 & H2); exists v1, v2;
      (split; [reflexivity|]; split; [exact H1|]);
      apply pattern_match_true, Hstar, pattern_match_true, H2. }
  rewrite !pattern_match_eq in *.
  destruct (Re.match_here true (nodes_of_glob (p1 +:+ "**" +:+ p2)) value),
    (Re.match_here true (nodes_of_glob (p1 +:+ "*" +:+ p2)) value);
    try reflexivity; destruct Hiff as [H1 H2];
    [now rewrite H1 | now rewrite H2].
Qed.

Lemma length_append (a b : string) :
  String.length (a +:+ b) = String.length a + String.length b.
Proof.
  induction a as [|c a IH]; [reflexivity|].
  rewrite append_cons. cbn. now rewrite IH.
Qed.

(** X5: a value that matches is at least as long as the pattern without
    its [*]s: every other character of the pattern takes one character. *)
Theorem pattern_match_min_length pattern value :
  pattern_match pattern value = Some true ->
  literal_count pattern <= String.length value.
Proof.
  rewrite pattern_match_true.
  induction 1 as [|c p v Hc _ IH|p run v _ IH]; cbn.
  - lia.
  - destruct (Ascii.eqb_spec c "*"); [congruence | lia].
  - rewrite length_append. lia.
Qed.

(** X5 at ["foo*bar"] and ["foobazbar"]. *)
Lemma pattern_match_min_length_witness :
  pattern_match "foo*bar" "foobazbar" = Some true
  /\ literal_count "foo*bar" <= String.length "foobazbar".
Proof.
  assert (pattern_match "foo*bar" "foobazbar" = Some true) as H
    by (vm_compute; reflexivity).
  split; [exact H|]. exact (pattern_match_min_length _ _ H).
Defined.

(** ** [print_i] and the trace of [partial_compare] *)

(** Induction on a string, two characters at a time. *)
Lemma string_ind2 (P : string -> Prop) :
  P "" -> (forall c, P (String c "")) ->
  (forall c d s, P s -> P (String d s) -> P (String c (String d s))) ->
  forall s, P s.
Proof.
  intros H0 H1 H2 s.
  assert (P s /\ forall c, P (String c s)) as [H _]; [|exact H].
  induction s as [|d s [IH1 IH2]]; [now split|].
  split; [apply IH2|]. intros c. apply H2; [exact IH1 | apply IH2].
Qed.

Lemma splitlines_linebreak c rest :
  is_linebreak c = true ->
  splitlines (String c rest)
  = "" :: (if Ascii.eqb c "013" then
             match rest with
             | String "010" rest' => splitlines rest'
             | _ => splitlines rest
             end
           else splitlines rest).
Proof. intros H. cbn [splitlines]. now rewrite H. Qed.

Lemma splitlines_plain c rest :
  is_linebreak c = false ->
  splitlines (String c rest)
  = match splitlines rest with
    | [] => [String c ""]
    | line :: lines => String c line :: lines
    end.
Proof. intros H. cbn [splitlines]. now rewrite H. Qed.

Lemma splitlines_crlf rest :
  splitlines (String "013" (String "010" rest)) = "" :: splitlines rest.
Proof. reflexivity. Qed.

Lemma splitlines_cr d rest :
  d <> "010"%char ->
  splitlines (String "013" (String d rest))
  = "" :: splitlines (String d rest).
Proof.
  intros Hd. rewrite splitlines_linebreak by reflexivity.
  cbn [Ascii.eqb Bool.eqb]. cbv iota. f_equal.
  destruct d as [[] [] [] [] [] [] [] []]; solve [reflexivity | congruence].
Qed.

Lemma splitlines_break c rest :
  is_linebreak c = true -> c <> "013"%char ->
  splitlines (String c rest) = "" :: splitlines rest.
Proof.
  intros Hc Hcr. rewrite splitlines_linebreak by exact Hc.
  now destruct (Ascii.eqb_spec c "013").
Qed.

(** The three ways a text that starts with a line boundary goes on. *)
Lemma splitlines_linebreak_cases c d rest :
  is_linebreak c = true ->
  splitlines (String c (String d rest)) = "" :: splitlines rest
  \/ splitlines (String c (String d rest)) = "" :: splitlines (String d rest).
Proof.
  intros Hc. destruct (Ascii.eqb_spec c "013") as [->|Hcr].
  - destruct (Ascii.eqb_spec d "010") as [->|Hd].
    + left. apply splitlines_crlf.
    + right. now apply splitlines_cr.
  - right. now apply splitlines_break.
Qed.

Lemma splitlines_no_linebreak s :
  Forall (fun line => no_linebreak line = true) (splitlines s).
Proof.
  induction s as [|c|c d s IH1 IH2] using string_ind2.
  - constructor.
  - destruct (is_linebreak c) eqn:Hc.
    + rewrite splitlines_linebreak by exact Hc.
      destruct (Ascii.eqb c "013"); repeat constructor.
    + rewrite splitlines_plain by exact Hc.
      repeat constructor. cbn [no_linebreak]. now rewrite Hc.
  - destruct (is_linebreak c) eqn:Hc.
    + destruct (splitlines_linebreak_cases c d s Hc) as [-> | ->];
        now constructor.
    + rewrite splitlines_plain by exact Hc.
      destruct (splitlines (String d s)) as [|line lines].
      * repeat constructor. cbn [no_linebreak]. now rewrite Hc.
      * inversion IH2 as [|? ? Hline Hlines]; subst.
        constructor; [|exact Hlines]. cbn [no_linebreak].
        now rewrite Hc, Hline.
Qed.


Lemma no_linebreak_app a b :
  no_linebreak (a +:+ b) = no_linebreak a && no_linebreak b.
Proof.
  induction a as [|c a IH]; [reflexivity|].
  rewrite append_cons. cbn [no_linebreak]. now rewrite IH, andb_assoc.
Qed.

Lemma no_linebreak_repeat n : no_linebreak (str_repeat "|   " n) = true.
Proof.
  induction n as [|n IH]; [reflexivity|].
  cbn [str_repeat]. now rewrite no_linebreak_app, IH.
Qed.

Lemma startswith_app prefix s : startswith prefix (prefix +:+ s) = true.
Proof.
  induction prefix as [|c prefix IH]; [reflexivity|].
  rewrite append_cons. cbn. now rewrite Ascii.eqb_refl.
Qed.

Lemma startswith_app_r prefix s t :
  startswith prefix s = true -> startswith prefix (s +:+ t) = true.
Proof.
  revert s. induction prefix as [|c prefix IH]; intros [|d s] H;
    try reflexivity; try discriminate.
  rewrite append_cons. cbn in *.
  apply andb_true_iff in H as [-> H]. now apply IH.
Qed.

Lemma str_repeat_succ_r s n : str_repeat s (n + 1) = str_repeat s n +:+ s.
Proof.
  induction n as [|n IH]; cbn [Nat.add str_repeat].
  - apply append_empty_r.
  - now rewrite IH, append_assoc.
Qed.

(** A line at the next level of indentation also starts with the prefix of
    this level. *)
Lemma startswith_deeper n line :
  startswith (str_repeat "|   " (n + 1)) line = true ->
  startswith (str_repeat "|   " n) line = true.
Proof.
  rewrite str_repeat_succ_r. generalize (str_repeat "|   " n) as p.
  intros p. revert line. induction p as [|c p IH]; intros line H;
    [reflexivity|].
  destruct line as [|d line]; [discriminate|].
  rewrite append_cons in H. cbn in *.
  apply andb_true_iff in H as [-> H]. now apply IH.
Qed.

Lemma print_i_indented text indent error :
  Forall (indented indent) (print_i text indent error).
Proof.
  unfold print_i. apply Forall_fmap.
  eapply Forall_impl; [apply splitlines_no_linebreak|].
  intros line Hline. split; [apply startswith_app|]. cbn.
  now rewrite no_linebreak_app, no_linebreak_repeat.
Qed.

Lemma indented_deeper indent line :
  indented (indent + 1) line -> indented indent line.
Proof. intros [H1 H2]. split; [now apply startswith_deeper | exact H2]. Qed.





(** [isinstance] on a value whose type is known. *)
Ltac isinstance_known :=
  repeat match goal with
  | |- context [isinstance ?v ?typ] =>
      let b := eval vm_compute in (isinstance v typ) in
      match b with
      | true => idtac
      | false => idtac
      end;
      change (isinstance v typ) with b
  end.

Section TraceFacts.

Variable repr : pyval -> string.
Variable approx : spec_float -> spec_float -> bool.
Variable pformat : pyval -> string.
Variable ON_CI : bool.

Local Abbreviation pc := (partial_compare repr approx).
Local Abbreviation pcio := (partial_compare_io repr approx pformat ON_CI).
Local Abbreviation group_lines := (group_lines ON_CI).
Local Abbreviation head_lines := (head_lines pformat ON_CI).
Local Abbreviation handled := (handled repr approx pformat ON_CI).

Lemma partial_compare_io_unfold val1 val2 indent :
  pcio val1 val2 indent
  = if is_Ellipsis val2 then
      Some (Outcome None,
            head_lines val1 val2 indent
            ++ print_i "Ignoring ellipsis comparison" indent true)
    else if bool_decide (type_of val1 <> type_of val2) then
      Some (Outcome (Some (different_types val1 val2)),
            head_lines val1 val2 indent
            ++ print_i (different_types val1 val2) indent true)
    else
      '(outcome, out) ← handled val1 val2 indent;
      Some (outcome,
            head_lines val1 val2 indent ++ out
            ++ print_i ("---> " +:+ outcome_str outcome) indent false
            ++ group_lines indent "::endgroup::").
Proof.
  unfold head_lines, handled, group_lines.
  destruct val2, ON_CI, indent; reflexivity.
Qed.

(** *** The trace does not change the outcome *)

Lemma dict_io_erase cls items1 indent items2 :
  Forall (fun kv => forall val1 indent,
            fst <$> pcio val1 kv.2 indent = pc val1 kv.2) items2 ->
  fst <$> _partial_compare_dict_io repr pcio (VDict cls items1) indent items2
  = _partial_compare_dict repr pc (VDict cls items1) items2.
Proof.
  induction 1 as [|[key item2] rest Hitem _ IH]; [reflexivity|].
  rewrite dict_loop_cons. cbn [_partial_compare_dict_io].
  destruct (dict_get key items1) as [item1|]; [|reflexivity].
  specialize (Hitem item1 (indent + 1)). cbn [snd] in Hitem.
  rewrite <- Hitem.
  destruct (pcio item1 item2 (indent + 1)) as [[o out]|]; [|reflexivity].
  cbn. destruct (outcome_bool o); cbn; [|reflexivity].
  rewrite <- IH.
  now destruct (_partial_compare_dict_io _ _ _ _ rest) as [[o' out']|].
Qed.

Lemma zip_io_erase indent items2 : forall items1,
  Forall (fun val2 => forall val1 indent,
            fst <$> pcio val1 val2 indent = pc val1 val2) items2 ->
  fst <$> zip_compare_io pcio indent items1 items2
  = zip_compare pc items1 items2.
Proof.
  intros items1 H. revert items1.
  induction H as [|item2 rest2 Hitem _ IH]; intros [|item1 rest1];
    try reflexivity.
  rewrite zip_compare_cons. cbn [zip_compare_io].
  rewrite <- (Hitem item1 (indent + 1)).
  destruct (pcio item1 item2 (indent + 1)) as [[o out]|]; [|reflexivity].
  cbn. destruct (outcome_bool o); cbn; [|reflexivity].
  rewrite <- IH.
  now destruct (zip_compare_io _ _ rest1 rest2) as [[o' out']|].
Qed.

Lemma fst_bind_trace (m : option (PartialCompareOutcome * stdout))
    (g : PartialCompareOutcome -> stdout -> stdout) :
  fst <$> ('(outcome, out) ← m; Some (outcome, g outcome out)) = fst <$> m.
Proof. now destruct m as [[o out]|]. Qed.

Lemma fst_quiet result : fst <$> quiet result = result.
Proof. now destruct result. Qed.

(** X7: what is printed has no influence on what is returned: for every
    [indent], on CI or not, and whatever [pprint.pformat] gives, the call
    returns the outcome of [partial_compare]; in particular the asserts of
    [gha_group_begin] and [gha_group_end] never fail, as they are called
    on CI only. *)
Theorem partial_compare_io_outcome val2 : forall val1 indent,
  fst <$> partial_compare_io repr approx pformat ON_CI val1 val2 indent
  = partial_compare repr approx val1 val2.
Proof.
  induction val2 as [| |b|cls n|cls x|cls s|cls items H|cls items H
                     |cls items H] using pyval_ind;
    intros val1 indent;
    rewrite partial_compare_io_unfold, partial_compare_unfold;
    cbn [is_Ellipsis]; try reflexivity;
    (case_bool_decide as Ht; [reflexivity|]);
    rewrite fst_bind_trace; unfold handled; isinstance_known; dispatch;
    rewrite fst_bind_trace; try apply fst_quiet.
  - apply same_type_list in Ht as [items1 ->].
    unfold _partial_compare_list_io, _partial_compare_list.
    destruct (Nat.ltb (length items1) (length items)); [reflexivity|].
    now apply zip_io_erase.
  - apply same_type_dict in Ht as [items1 ->].
    apply dict_io_erase.
    eapply Forall_impl; [exact H|]. now intros kv [_ Hv].
Qed.

(** *** The shape of the trace *)

Lemma group_lines_indented indent line :
  no_linebreak line = true ->
  Forall (indented indent) (group_lines indent line).
Proof.
  intros Hline. unfold group_lines.
  destruct ON_CI, indent; cbn; repeat constructor; assumption.
Qed.

Lemma head_lines_indented val1 val2 indent :
  Forall (indented indent) (head_lines val1 val2 indent).
Proof.
  unfold head_lines. rewrite !Forall_app.
  repeat split; try apply print_i_indented;
    try (eapply Forall_impl;
         [apply print_i_indented | apply indented_deeper]).
  now apply group_lines_indented.
Qed.

Lemma bind_trace_Some (m : option (PartialCompareOutcome * stdout))
    (g : PartialCompareOutcome -> stdout -> stdout) outcome out :
  ('(o, t) ← m; Some (o, g o t)) = Some (outcome, out) ->
  exists t, m = Some (outcome, t) /\ out = g outcome t.
Proof. destruct m as [[o t]|]; [|discriminate]. intros [= -> <-]. eauto. Qed.

Lemma dict_io_indented cls items1 indent items2 :
  Forall (fun kv => forall val1 indent outcome out,
            pcio val1 kv.2 indent = Some (outcome, out) ->
            Forall (indented indent) out) items2 ->
  forall outcome out,
    _partial_compare_dict_io repr pcio (VDict cls items1) indent items2
    = Some (outcome, out) ->
    Forall (indented indent) out.
Proof.
  induction 1 as [|[key item2] rest Hitem _ IH]; intros o out;
    cbn [_partial_compare_dict_io].
  - intros [= _ <-]. constructor.
  - destruct (dict_get key items1) as [item1|].
    + destruct (pcio item1 item2 (indent + 1)) as [[o1 out1]|] eqn:H1;
        [|discriminate].
      apply Hitem in H1.
      assert (Forall (indented indent) out1) as Hout1
        by (eapply Forall_impl; [exact H1 | apply indented_deeper]).
      destruct (outcome_bool o1); cbn [negb].
      * destruct (_partial_compare_dict_io _ _ _ _ rest) as [[o2 out2]|]
          eqn:H2; [|discriminate].
        intros [= _ <-]. apply Forall_app. split; [exact Hout1|].
        now apply (IH o2).
      * now intros [= _ <-].
    + intros [= _ <-]. apply print_i_indented.
Qed.

Lemma zip_io_indented indent items2 :
  Forall (fun val2 => forall val1 indent outcome out,
            pcio val1 val2 indent = Some (outcome, out) ->
            Forall (indented indent) out) items2 ->
  forall items1 outcome out,
    zip_compare_io pcio indent items1 items2 = Some (outcome, out) ->
    Forall (indented indent) out.
Proof.
  induction 1 as [|item2 rest2 Hitem _ IH]; intros [|item1 rest1] o out;
    cbn [zip_compare_io]; try (intros [= _ <-]; constructor).
  destruct (pcio item1 item2 (indent + 1)) as [[o1 out1]|] eqn:H1;
    [|discriminate].
  apply Hitem in H1.
  assert (Forall (indented indent) out1) as Hout1
    by (eapply Forall_impl; [exact H1 | apply indented_deeper]).
  destruct (outcome_bool o1); cbn [negb].
  - destruct (zip_compare_io _ _ rest1 rest2) as [[o2 out2]|] eqn:H2;
      [|discriminate].
    intros [= _ <-]. apply Forall_app. split; [exact Hout1|].
    now apply (IH rest1 o2).
  - now intros [= _ <-].
Qed.

Lemma quiet_indented result indent text outcome out :
  ('(o, t) ← quiet result; Some (o, print_i text indent false ++ t))
  = Some (outcome, out) ->
  Forall (indented indent) out.
Proof.
  destruct result as [o|]; [|discriminate]. intros [= _ <-].
  rewrite app_nil_r. apply print_i_indented.
Qed.

(** X8: every line a call writes starts with the indentation of the call,
    [indent] times ["|   "], and is a single line: the lines of the calls
    inside it are indented further, and the group lines are only written
    at [indent] 0. *)
Theorem partial_compare_io_indented val2 : forall val1 indent outcome out,
  partial_compare_io repr approx pformat ON_CI val1 val2 indent
  = Some (outcome, out) ->
  Forall (indented indent) out.
Proof.
  induction val2 as [| |b|cls n|cls x|cls s|cls items H|cls items H
                     |cls items H] using pyval_ind;
    intros val1 indent o out; rewrite partial_compare_io_unfold;
    cbn [is_Ellipsis];
    try (intros [= _ <-]; apply Forall_app; split;
         [apply head_lines_indented | apply print_i_indented]);
    (case_bool_decide as Ht;
     [intros [= _ <-]; apply Forall_app; split;
      [apply head_lines_indented | apply print_i_indented]|]);
    intros Hrun; apply bind_trace_Some in Hrun as (t & Hrun & ->);
    rewrite !Forall_app;
    (split; [apply head_lines_indented|]);
    (split; [|split; [apply print_i_indented
                     |now apply group_lines_indented]]);
    revert Hrun; unfold handled; isinstance_known; dispatch;
    try apply quiet_indented.
  - apply same_type_list in Ht as [items1 ->].
    intros Hrun. apply bind_trace_Some in Hrun as (t' & Hrun & ->).
    apply Forall_app. split; [apply print_i_indented|].
    revert Hrun. unfold _partial_compare_list_io.
    destruct (Nat.ltb (length items1) (length items)).
    + intros [= _ <-]. apply print_i_indented.
    + now apply zip_io_indented.
  - apply same_type_dict in Ht as [items1 ->].
    intros Hrun. apply bind_trace_Some in Hrun as (t' & Hrun & ->).
    apply Forall_app. split; [apply print_i_indented|].
    revert Hrun. apply dict_io_indented.
    eapply Forall_impl; [exact H|]. now intros kv [_ Hv].
Qed.

Lemma print_i_verdict outcome indent :
  print_i ("---> " +:+ outcome_str outcome) indent false
  = [str_repeat "|   " indent +:+ "---> " +:+ outcome_str outcome].
Proof. unfold outcome_str. now destruct (outcome_bool outcome). Qed.

Lemma head_lines_first val1 val2 indent :
  exists rest,
    head_lines val1 val2 indent
    = (if ON_CI && (indent =? 0)%nat then "::group::Comparison"
       else str_repeat "|   " indent +:+ "Comparing") :: rest.
Proof.
  unfold head_lines, group_lines.
  destruct (ON_CI && (indent =? 0)%nat); cbn [app]; eauto.
Qed.

(** X9: a call that gets past the ellipsis and type checks ends its trace
    with the line ["---> true"] or ["---> false"], at its indentation and
    according to the outcome it returns, followed at the top level on CI
    by ["::endgroup::"], which closes the group that the first line,
    ["::group::Comparison"], opened; outside CI or inside another
    comparison the first line is ["Comparing"]. *)
Theorem partial_compare_io_verdict val1 val2 indent outcome out :
  val2 <> VEllipsis -> type_of val1 = type_of val2 ->
  partial_compare_io repr approx pformat ON_CI val1 val2 indent
  = Some (outcome, out) ->
  head out
  = Some (if ON_CI && (indent =? 0)%nat then "::group::Comparison"
          else str_repeat "|   " indent +:+ "Comparing")
  /\ exists body,
       out = body
             ++ [str_repeat "|   " indent +:+ "---> "
                 +:+ (if outcome_bool outcome then "true" else "false")]
             ++ (if ON_CI && (indent =? 0)%nat then ["::endgroup::"]
                 else []).
Proof.
  intros He Ht. apply is_Ellipsis_false in He.
  rewrite partial_compare_io_unfold, He.
  rewrite bool_decide_eq_false_2 by (intros H; now apply H).
  intros Hrun. apply bind_trace_Some in Hrun as (t & _ & ->).
  destruct (head_lines_first val1 val2 indent) as [rest Hhead].
  split; [now rewrite Hhead|].
  exists (head_lines val1 val2 indent ++ t).
  now rewrite print_i_verdict, <- app_assoc.
Qed.


End TraceFacts.

(** The trace of [[1]] against [[2]] at the top level on CI. *)
Example partial_compare_io_list :
  partial_compare_io type_tag Pytest.approx type_tag true
    (py_list [py_int 1]) (py_list [py_int 2]) 0
  = Some (Outcome (Some "<int> != <int>"),
          ["::group::Comparison"; "Comparing"; "|   <list>";
           "|---- to ----"; "|   <list>"; "|======= Comparing as list";
           "|   Comparing"; "|   |   <int>"; "|   |---- to ----";
           "|   |   <int>"; "|   |======= Comparing via ==";
           "|   ---> false"; "---> false"; "::endgroup::"]).
Proof. vm_compute. reflexivity. Qed.

(** X8 and X9 at that comparison. *)
Lemma partial_compare_io_indented_witness :
  exists outcome out,
    partial_compare_io type_tag Pytest.approx type_tag true
      (py_list [py_int 1]) (py_list [py_int 2]) 0
    = Some (outcome, out)
    /\ Forall (indented 0) out.
Proof.
  eexists _, _. split; [exact partial_compare_io_list|].
  exact (partial_compare_io_indented type_tag Pytest.approx type_tag true
           (py_list [py_int 2]) (py_list [py_int 1]) 0 _ _
           partial_compare_io_list).
Defined.

Lemma partial_compare_io_verdict_witness :
  py_list [py_int 2] <> VEllipsis
  /\ type_of (py_list [py_int 1]) = type_of (py_list [py_int 2])
  /\ exists outcome out,
       partial_compare_io type_tag Pytest.approx type_tag true
         (py_list [py_int 1]) (py_list [py_int 2]) 0
       = Some (outcome, out)
       /\ exists body, out = body ++ ["---> false"] ++ ["::endgroup::"].
Proof.
  assert (py_list [py_int 2] <> VEllipsis) as He by discriminate.
  split; [exact He|]. split; [reflexivity|].
  eexists _, _. split; [exact partial_compare_io_list|].
  exact (proj2 (partial_compare_io_verdict type_tag Pytest.approx type_tag
                  true (py_list [py_int 1]) (py_list [py_int 2]) 0 _ _
                  He eq_refl partial_compare_io_list)).
Defined.


(** ** [partial_compare]: asking for less, and a value against itself *)

(** [==] on dicts, by the lookups it makes. *)
Lemma py_eq_dict cls1 cls2 d1 d2 :
  py_eq (VDict cls1 d1) (VDict cls2 d2)
  = (length d1 =? length d2)%nat
    && forallb (fun kv => match dict_get kv.1 d2 with
                          | Some v' => py_eq kv.2 v'
                          | None => false
                          end) d1.
Proof.
  cbn [py_eq]. f_equal.
  induction d1 as [|[k v] d1 IH]; [reflexivity|].
  cbn [forallb fst snd]. rewrite <- IH. f_equal.
  clear. induction d2 as [|[k' v'] d2 IH]; [reflexivity|].
  simpl. destruct (py_eq k k'); [reflexivity | exact IH].
Qed.

Lemma well_formed_dict_cons cls k x d :
  well_formed (VDict cls ((k, x) :: d))
  = well_formed k && well_formed x
    && forallb (fun kv => negb (py_eq kv.1 k)) d
    && well_formed (VDict cls d).
Proof. reflexivity. Qed.

Lemma well_formed_dict_item cls d key item :
  well_formed (VDict cls d) = true -> (key, item) ∈ d ->
  well_formed key = true /\ well_formed item = true.
Proof.
  induction d as [|[k x] d IH]; intros Hwf Hin;
    [now apply elem_of_nil in Hin|].
  rewrite well_formed_dict_cons in Hwf.
  apply andb_true_iff in Hwf as [Hwf Hd].
  apply andb_true_iff in Hwf as [Hwf _].
  apply andb_true_iff in Hwf as [Hk Hx].
  apply elem_of_cons in Hin as [[= -> ->]|Hin]; [now split | now apply IH].
Qed.

(** In a dict with no key twice, a key finds the value stored with it. *)
Lemma dict_get_stored cls d key item :
  well_formed (VDict cls d) = true -> py_eq key key = true ->
  (key, item) ∈ d -> dict_get key d = Some item.
Proof.
  induction d as [|[k x] d IH]; intros Hwf Hkey Hin;
    [now apply elem_of_nil in Hin|].
  rewrite well_formed_dict_cons in Hwf.
  apply andb_true_iff in Hwf as [Hwf Hd].
  apply andb_true_iff in Hwf as [_ Hother].
  cbn [dict_get]. apply elem_of_cons in Hin as [[= -> ->]|Hin].
  - now rewrite Hkey.
  - rewrite forallb_forall in Hother. pose proof Hin as Hne.
    apply list_elem_of_In, Hother, negb_true_iff in Hne.
    cbn [fst] in Hne. rewrite Hne. now apply IH.
Qed.

Lemma py_eq_refl v : well_formed v = true -> py_eq v v = true.
Proof.
  induction v as [| |b|cls n|cls x|cls s|cls items IH|cls items IH
                  |cls items IH] using pyval_ind; intros Hwf;
    try reflexivity.
  - destruct b; reflexivity.
  - cbn. apply Z.eqb_refl.
  - exact Hwf.
  - cbn. apply String.eqb_refl.
  - induction IH as [|x xs Hx _ IHxs]; [reflexivity|].
    cbn [well_formed forallb] in Hwf.
    apply andb_true_iff in Hwf as [Hwx Hwxs].
    change (py_eq x x && py_eq (VList cls xs) (VList cls xs) = true).
    now rewrite Hx, IHxs.
  - induction IH as [|x xs Hx _ IHxs]; [reflexivity|].
    cbn [well_formed forallb] in Hwf.
    apply andb_true_iff in Hwf as [Hwx Hwxs].
    change (py_eq x x && py_eq (VTuple cls xs) (VTuple cls xs) = true).
    now rewrite Hx, IHxs.
  - rewrite py_eq_dict, Nat.eqb_refl. cbn [andb].
    apply forallb_forall. intros [k x] Hin. apply list_elem_of_In in Hin.
    cbn [fst snd].
    destruct (well_formed_dict_item cls items k x Hwf Hin) as [Hk Hx].
    rewrite Forall_forall in IH. destruct (IH (k, x) Hin) as [IHk IHx].
    rewrite (dict_get_stored cls items k x) by auto. now apply IHx.
Qed.

Section PartialCompareOrder.

Variable repr : pyval -> string.
Variable approx : spec_float -> spec_float -> bool.

Local Abbreviation pc := (partial_compare repr approx).

Lemma success_same_type val1 val2 :
  pc val1 val2 = success -> is_Ellipsis val2 = false ->
  type_of val1 = type_of val2.
Proof.
  intros Hpc He. rewrite partial_compare_unfold, He in Hpc.
  destruct (decide (type_of val1 = type_of val2)) as [Ht|Ht]; [exact Ht|].
  now rewrite bool_decide_eq_true_2 in Hpc.
Qed.

Lemma list_success cls items1 items2 :
  pc (VList cls items1) (VList cls items2) = success
  <-> length items2 <= length items1
      /\ forall i item1 item2,
           items1 !! i = Some item1 -> items2 !! i = Some item2 ->
           pc item1 item2 = success.
Proof.
  unfold success. rewrite partial_compare_list. unfold _partial_compare_list.
  destruct (Nat.ltb_spec (length items1) (length items2)) as [Hlt|Hle].
  - split; [discriminate | lia].
  - rewrite zip_compare_success. split; [now split | now intros [_ H]].
Qed.

(** X11: an expected value that asks for less is still matched: when a
    comparison succeeds, it also succeeds against the expected value with
    parts of it replaced by the ellipsis, keys of its dicts dropped, or
    its lists cut to a prefix. *)
Theorem partial_compare_less_specific expected' :
  forall expected val1,
    less_specific expected' expected ->
    partial_compare repr approx val1 expected = success ->
    partial_compare repr approx val1 expected' = success.
Proof.
  induction expected' as [| |b|cls n|cls x|cls s|cls items' IH|cls items' IH
                          |cls items' IH] using pyval_ind;
    intros expected val1 Hless Hpc;
    inversion Hless as [e|e|c l' l Hlen Hitems|c d' d Hitems]; subst;
    try exact Hpc; try reflexivity.
  - pose proof (success_same_type _ _ Hpc eq_refl) as Ht.
    apply same_type_list in Ht as [items1 ->].
    apply list_success in Hpc as [Hle Hall].
    apply list_success. split; [lia|].
    intros i item1 item' H1 H'.
    destruct (lookup_lt_is_Some_2 l i) as [item Hi].
    { apply lookup_lt_Some in H'. lia. }
    rewrite Forall_lookup in IH.
    apply (IH i item' H' item); eauto.
  - pose proof (success_same_type _ _ Hpc eq_refl) as Ht.
    apply same_type_dict in Ht as [items1 ->].
    unfold success in *. rewrite partial_compare_dict in *.
    rewrite dict_loop_success in *.
    intros key item' Hin.
    destruct (Hitems key item' Hin) as (item & Hin2 & Hweak).
    destruct (Hpc key item Hin2) as (item1 & Hget & Hsub).
    exists item1. split; [exact Hget|].
    rewrite Forall_forall in IH.
    exact (proj2 (IH (key, item') Hin) item item1 Hweak Hsub).
Qed.

(** X12: a value compared with itself succeeds, as long as it has no NaN
    in it and no key twice in a dict, and [approx] holds between a number
    and itself: so a comparison of a value with a copy of it never
    fails. *)
Theorem partial_compare_itself val :
  (forall x, SFeqb x x = true -> approx x x = true) ->
  well_formed val = true ->
  partial_compare repr approx val val = success.
Proof.
  intros Happrox.
  induction val as [| |b|cls n|cls x|cls s|cls items IH|cls items IH
                    |cls items IH] using pyval_ind; intros Hwf;
    try reflexivity;
    try (unfold success; rewrite partial_compare_same_type by reflexivity;
         isinstance_known; dispatch; unfold _partial_compare_eq;
         now rewrite py_eq_refl).
  - unfold success. rewrite partial_compare_float. cbn.
    now rewrite Happrox.
  - unfold success. rewrite partial_compare_str. cbn.
    now rewrite (proj2 (pattern_match_true s s) (glob_matches_refl s)).
  - apply list_success. split; [reflexivity|].
    intros i item1 item2 H1 H2. assert (item2 = item1) as -> by congruence.
    rewrite Forall_lookup in IH. apply (IH i item1 H1).
    cbn [well_formed] in Hwf. rewrite forallb_forall in Hwf.
    apply Hwf, list_elem_of_In, list_elem_of_lookup. eauto.
  - unfold success. rewrite partial_compare_dict, dict_loop_success.
    intros key item Hin.
    destruct (well_formed_dict_item cls items key item Hwf Hin) as [Hk Hx].
    exists item. split.
    + apply (dict_get_stored cls); auto using py_eq_refl.
    + rewrite Forall_forall in IH. now apply (IH (key, item) Hin).
Qed.

End PartialCompareOrder.

(** X11 at [{"a": [1, 2, 3], "b": "x", "c": None}] against
    [{"a": [1, 2], "b": "x"}] and the less specific [{"a": [...]}]. *)
Lemma partial_compare_less_specific_witness :
  let val1 :=
    py_dict [(py_str "a", py_list [py_int 1; py_int 2; py_int 3]);
             (py_str "b", py_str "x"); (py_str "c", VNone)] in
  let expected :=
    py_dict [(py_str "a", py_list [py_int 1; py_int 2]);
             (py_str "b", py_str "x")] in
  let expected' := py_dict [(py_str "a", py_list [VEllipsis])] in
  less_specific expected' expected
  /\ forall repr approx,
       partial_compare repr approx val1 expected = success
       /\ partial_compare repr approx val1 expected' = success.
Proof.
  intros val1 expected expected'.
  assert (less_specific expected' expected) as Hless.
  { apply less_dict. intros key item' Hin.
    apply list_elem_of_singleton in Hin. injection Hin as -> ->.
    exists (py_list [py_int 1; py_int 2]). split; [left|].
    apply less_list; [cbn; lia|].
    intros [|i] item' item; [|discriminate].
    intros [= <-] _. apply less_ellipsis. }
  split; [exact Hless|]. intros repr approx.
  assert (partial_compare repr approx val1 expected = success) as Hpc
    by reflexivity.
  split; [exact Hpc|].
  exact (partial_compare_less_specific repr approx expected' expected val1
           Hless Hpc).
Defined.

Lemma pytest_approx_refl x : SFeqb x x = true -> Pytest.approx x x = true.
Proof. intros Hx. unfold Pytest.approx. now rewrite Hx. Qed.

(** X12 at [{"a": [1, (0.3, "x*")], "b": None}] with pytest's [approx]. *)
Lemma partial_compare_itself_witness :
  let val :=
    py_dict [(py_str "a",
              py_list [py_int 1; VTuple None [py_float f0_3; py_str "x*"]]);
             (py_str "b", VNone)] in
  (forall x, SFeqb x x = true -> Pytest.approx x x = true)
  /\ well_formed val = true
  /\ forall repr, partial_compare repr Pytest.approx val val = success.
Proof.
  intros val. split; [exact pytest_approx_refl|].
  assert (well_formed val = true) as Hwf by (vm_compute; reflexivity).
  split; [exact Hwf|]. intros repr.
  exact (partial_compare_itself repr Pytest.approx val pytest_approx_refl
           Hwf).
Defined.

(** ** [change_cwd] *)

Section ChangeCwdFacts.

Import ChangeCwd.

Variable abspath : string -> string -> string.

(** X13: when the directory given exists, and the old current directory
    (an absolute path) still exists once the body is over, the current
    directory after the [with] statement is the old one again, whether the
    body completed or raised and wherever it left the process; the body
    ran in the directory given, and what it raised is raised. *)
Theorem change_cwd_restores path body st :
  (forall from, abspath from (cwd st) = cwd st) ->
  abspath (cwd st) path ∈ dirs st ->
  let inside := {| cwd := abspath (cwd st) path; dirs := dirs st |} in
  cwd st ∈ dirs (body inside).2 ->
  change_cwd abspath path body st
  = ((body inside).1, {| cwd := cwd st; dirs := dirs (body inside).2 |}).
Proof.
  intros Habs Hpath inside Hold. unfold change_cwd, os_chdir.
  rewrite bool_decide_eq_true_2 by exact Hpath.
  unfold try_finally. fold inside.
  destruct (body inside) as [raised st'] eqn:Hbody. cbn [fst snd] in *.
  rewrite Habs, bool_decide_eq_true_2 by exact Hold. reflexivity.
Qed.

(** X14: when the directory given does not exist, [change_cwd] raises
    without running the body and leaves the process as it was; when the
    body removed the old current directory, the [with] statement raises
    [FileNotFoundError], also in place of what the body raised, and the
    process stays where the body left it. *)
Theorem change_cwd_errors path body st :
  (abspath (cwd st) path ∉ dirs st ->
   change_cwd abspath path body st = (Some "FileNotFoundError", st))
  /\ ((forall from, abspath from (cwd st) = cwd st) ->
      abspath (cwd st) path ∈ dirs st ->
      let inside := {| cwd := abspath (cwd st) path; dirs := dirs st |} in
      cwd st ∉ dirs (body inside).2 ->
      change_cwd abspath path body st
      = (Some "FileNotFoundError", (body inside).2)).
Proof.
  split.
  - intros Hpath. unfold change_cwd, os_chdir.
    now rewrite bool_decide_eq_false_2.
  - intros Habs Hpath inside Hold. unfold change_cwd, os_chdir.
    rewrite bool_decide_eq_true_2 by exact Hpath.
    unfold try_finally. fold inside.
    destruct (body inside) as [raised st'] eqn:Hbody. cbn [fst snd] in *.
    rewrite Habs, bool_decide_eq_false_2 by exact Hold. reflexivity.
Qed.

End ChangeCwdFacts.

(** X13 from ["/repo"] into ["tests"], with that body. *)
Lemma change_cwd_restores_witness :
  let st := {| ChangeCwd.cwd := "/repo";
               ChangeCwd.dirs := {["/"; "/repo"; "/repo/tests"]} |} in
  (forall from, ChangeCwd.posix_abspath from "/repo" = "/repo")
  /\ ChangeCwd.change_cwd ChangeCwd.posix_abspath "tests" failing_body st
     = (Some "RuntimeError", st).
Proof.
  intros st.
  assert (forall from, ChangeCwd.posix_abspath from "/repo" = "/repo")
    as Habs by reflexivity.
  split; [exact Habs|].
  refine (change_cwd_restores ChangeCwd.posix_abspath "tests" failing_body
            st Habs _ _); vm_compute; set_solver.
Defined.

(** X14 from ["/repo"] into a directory that is not there. *)
Lemma change_cwd_errors_witness :
  let st := {| ChangeCwd.cwd := "/repo";
               ChangeCwd.dirs := {["/"; "/repo"]} |} in
  ChangeCwd.change_cwd ChangeCwd.posix_abspath "tests" failing_body st
  = (Some "FileNotFoundError", st).
Proof.
  intros st.
  apply (proj1 (change_cwd_errors ChangeCwd.posix_abspath "tests"
                  failing_body st)).
  vm_compute. set_solver.
Defined.

(** ** [disable_seccomp_bpf_sandbox] *)

Section SeccompFacts.

Import Seccomp.

Context {VersionNumber : Type} `{EqDecision VersionNumber}.
Variable parse : string -> VersionNumber.

(** X15: the sandbox is disabled exactly when [QtWebEngine] is there and
    the version is the one parsed from [5.12.0] to [5.12.10], [5.13.0] to
    [5.13.2], [5.14.0], or [5.15.0] to [5.15.2], bounds included. *)
Theorem disable_seccomp_bpf_sandbox_versions QtWebEngine webengine :
  disable_seccomp_bpf_sandbox parse QtWebEngine webengine = true
  <-> QtWebEngine = true
      /\ exists minor patch,
           webengine
           = parse ("5." +:+ pretty minor +:+ "." +:+ pretty patch)
           /\ (minor = 12 /\ patch <= 10 \/ minor = 13 /\ patch <= 2
               \/ minor = 14 /\ patch = 0 \/ minor = 15 /\ patch <= 2).
Proof.
  unfold disable_seccomp_bpf_sandbox.
  destruct QtWebEngine; cbn [negb]; [|split; [discriminate | now intros []]].
  rewrite bool_decide_eq_true. unfold affected_versions, patch_ranges.
  split.
  - intros Hin. split; [reflexivity|].
    apply list_elem_of_bind in Hin as ([base range] & Hin & Hbase).
    apply list_elem_of_bind in Hin as (patch & Hin & Hpatch).
    apply list_elem_of_singleton in Hin as ->.
    rewrite !elem_of_cons, elem_of_nil in Hbase.
    destruct Hbase as [[= -> ->]|[[= -> ->]|[[= -> ->]|[[= -> ->]|[]]]]].
    + apply (elem_of_seq 0 11) in Hpatch.
      exists 12, patch. split; [reflexivity|lia].
    + apply (elem_of_seq 0 3) in Hpatch.
      exists 13, patch. split; [reflexivity|lia].
    + apply list_elem_of_singleton in Hpatch as ->.
      exists 14, 0. split; [reflexivity|lia].
    + apply (elem_of_seq 0 3) in Hpatch.
      exists 15, patch. split; [reflexivity|lia].
  - intros (_ & minor & patch & -> & Hrange).
    apply list_elem_of_bind.
    destruct Hrange as [[-> Hp]|[[-> Hp]|[[-> ->]|[-> Hp]]]].
    + exists ("5.12", seq 0 11). split; [|rewrite !elem_of_cons; auto].
      apply list_elem_of_bind. exists patch.
      split; [now left | apply elem_of_seq; lia].
    + exists ("5.13", seq 0 3). split; [|rewrite !elem_of_cons; auto].
      apply list_elem_of_bind. exists patch.
      split; [now left | apply elem_of_seq; lia].
    + exists ("5.14", [0]). split; [|rewrite !elem_of_cons; auto].
      apply list_elem_of_bind. exists 0. split; now left.
    + exists ("5.15", seq 0 3). split; [|rewrite !elem_of_cons; auto 6].
      apply list_elem_of_bind. exists patch.
      split; [now left | apply elem_of_seq; lia].
Qed.

End SeccompFacts.

(** ** The freeze script *)

Section FreezeScriptFacts.

Import Freeze FreezeScript.

Variable os_path_join : list string -> string.
Variable BASEDIR : option string.
Variable write_git_file : step.

(** X16: besides the file at [BASEDIR/qutebrowser/git-commit-id], the
    script removes nothing: every other path exists after the script
    exactly when it exists after [write_git_file] and [setup]. *)
Theorem freeze_removes_nothing_else setup fs path :
  (forall basedir,
     BASEDIR = Some basedir -> path <> git_commit_id os_path_join basedir) ->
  path ∈ (freeze os_path_join BASEDIR write_git_file setup fs).2
  <-> path ∈ (seq write_git_file setup fs).2.
Proof.
  intros Hpath. unfold freeze, try_finally.
  destruct (seq write_git_file setup fs) as [raised fs'].
  destruct BASEDIR as [basedir|]; [|reflexivity].
  rewrite cleanup_removes. cbn [snd].
  rewrite elem_of_difference, elem_of_singleton.
  specialize (Hpath basedir eq_refl). tauto.
Qed.

(** X17: the architecture only matters on Windows. Where [sys.platform]
    does not start with ["win"], the script is the [try] statement with
    the two include files and no base; on Windows with a 32 or 64 bit
    interpreter, [libEGL.dll] is a third include file and the base is
    ["Win32GUI"]; on Windows with any other architecture the script raises
    [ValueError] before anything is written, and nothing is cleaned up. *)
Theorem main_platforms
    (setup : list (string * string) -> option string -> step)
    platform bits fs :
  (startswith "win" platform = false ->
   main os_path_join BASEDIR write_git_file setup platform bits fs
   = freeze os_path_join BASEDIR write_git_file
       (setup [("qutebrowser/html", "html");
               ("qutebrowser/git-commit-id", "git-commit-id")] None) fs)
  /\ (startswith "win" platform = true ->
      bits <> "32bit" -> bits <> "64bit" ->
      main os_path_join BASEDIR write_git_file setup platform bits fs
      = (Some "ValueError", fs))
  /\ (startswith "win" platform = true ->
      bits = "32bit" \/ bits = "64bit" ->
      exists dll,
        get_egl_path platform bits = inr (Some dll)
        /\ main os_path_join BASEDIR write_git_file setup platform bits fs
           = freeze os_path_join BASEDIR write_git_file
               (setup [("qutebrowser/html", "html");
                       ("qutebrowser/git-commit-id", "git-commit-id");
                       (dll, "libEGL.dll")] (Some "Win32GUI")) fs).
Proof.
  unfold main, get_egl_path, base. split; [|split].
  - now intros ->.
  - intros -> H32 H64. cbn [negb].
    apply String.eqb_neq in H32, H64. now rewrite H32, H64.
  - intros -> [-> | ->]; cbn; eauto.
Qed.

End FreezeScriptFacts.

(** X16 with [BASEDIR = "."] at the path of another file. *)
Lemma freeze_removes_nothing_else_witness :
  (forall basedir,
     Some "." = Some basedir ->
     "./qutebrowser/html" <> Freeze.git_commit_id Freeze.posix_join basedir)
  /\ ("./qutebrowser/html"
        ∈ (Freeze.freeze Freeze.posix_join (Some ".")
             (Freeze.write_file "./qutebrowser/git-commit-id") Freeze.skip
             {["./qutebrowser/html"]}).2
      <-> "./qutebrowser/html"
            ∈ (Freeze.seq (Freeze.write_file "./qutebrowser/git-commit-id")
                 Freeze.skip {["./qutebrowser/html"]}).2).
Proof.
  assert (forall basedir,
            Some "." = Some basedir ->
            "./qutebrowser/html"
            <> Freeze.git_commit_id Freeze.posix_join basedir) as Hpath.
  { intros basedir [= <-]. discriminate. }
  split; [exact Hpath|].
  exact (freeze_removes_nothing_else Freeze.posix_join (Some ".") _ _ _ _
           Hpath).
Defined.

(** X17 on ["darwin"], which has ["win"] in it but does not start with
    it, and on ["win32"] with an unknown architecture. *)
Lemma main_platforms_witness :
  startswith "win" "darwin" = false
  /\ startswith "win" "win32" = true
  /\ forall os_path_join BASEDIR write_git_file setup fs,
       FreezeScript.main os_path_join BASEDIR write_git_file setup
         "darwin" "64bit" fs
       = Freeze.freeze os_path_join BASEDIR write_git_file
           (setup [("qutebrowser/html", "html");
                   ("qutebrowser/git-commit-id", "git-commit-id")] None) fs
       /\ FreezeScript.main os_path_join BASEDIR write_git_file setup
            "win32" "16bit" fs
          = (Some "ValueError", fs).
Proof.
  split; [reflexivity|]. split; [reflexivity|].
  intros os_path_join BASEDIR write_git_file setup fs. split.
  - exact (proj1 (main_platforms os_path_join BASEDIR write_git_file setup
                    "darwin" "64bit" fs) eq_refl).
  - apply (proj1 (proj2 (main_platforms os_path_join BASEDIR write_git_file
                           setup "win32" "16bit" fs)));
      [reflexivity | discriminate | discriminate].
Defined.

(** ** [partial_compare]: what a failure says *)

Lemma nonempty_app_l (a b : string) : a <> "" -> a +:+ b <> "".
Proof. destruct a; [congruence|]. rewrite append_cons. discriminate. Qed.

Lemma nonempty_app_r (a b : string) : b <> "" -> a +:+ b <> "".
Proof.
  intros Hb. destruct a; [now rewrite append_empty_l|].
  rewrite append_cons. discriminate.
Qed.

Section PartialCompareMessages.

Variable repr : pyval -> string.
Variable approx : spec_float -> spec_float -> bool.

Local Abbreviation pc := (partial_compare repr approx).

Lemma not_equal_nonempty (val1 : pyval) (rest : string) :
  repr val1 +:+ " != " +:+ rest <> "".
Proof. apply nonempty_app_r, nonempty_app_l. discriminate. Qed.

(** A failure of the loop over two lists is the failure of one pair of
    items. *)
Lemma zip_compare_failure items2 : forall items1 msg,
  zip_compare pc items1 items2 = failure msg ->
  exists item1 item2,
    item2 ∈ items2 /\ pc item1 item2 = failure msg.
Proof.
  unfold failure.
  induction items2 as [|item2 rest2 IH]; intros [|item1 rest1] msg;
    try discriminate.
  rewrite zip_compare_cons.
  destruct (pc item1 item2) as [o|] eqn:Ho; [|discriminate]. cbn.
  destruct (outcome_bool o) eqn:Hb; cbn.
  - intros H. apply IH in H as (x1 & x2 & Hin & Hx).
    exists x1, x2. split; [now right | exact Hx].
  - intros [= ->]. exists item1, item2. split; [now left | exact Ho].
Qed.

(** A failure of the loop over a dict is a missing key or the failure of
    the values under one key. *)
Lemma dict_loop_failure cls items1 items2 : forall msg,
  _partial_compare_dict repr pc (VDict cls items1) items2 = failure msg ->
  (exists key item2, (key, item2) ∈ items2 /\ msg = key_missing repr key)
  \/ exists key item1 item2,
       (key, item2) ∈ items2 /\ pc item1 item2 = failure msg.
Proof.
  unfold failure.
  induction items2 as [|[key item2] rest IH]; intros msg; [discriminate|].
  rewrite dict_loop_cons.
  destruct (dict_get key items1) as [item1|].
  - destruct (pc item1 item2) as [o|] eqn:Ho; [|discriminate]. cbn.
    destruct (outcome_bool o) eqn:Hb; cbn.
    + intros H. apply IH in H as [(k & v & Hin & ->)|(k & v1 & v2 & Hin & H)].
      * left. exists k, v. split; [now right | reflexivity].
      * right. exists k, v1, v2. split; [now right | exact H].
    + intros [= ->]. right. exists key, item1, item2.
      split; [now left | exact Ho].
  - intros [= <-]. left. exists key, item2. split; [now left | reflexivity].
Qed.

(** X18: a failing outcome never has an empty description: whatever
    [repr] gives, each of the messages has text of its own, and a failure
    inside a list or a dict is handed up as it is. *)
Theorem partial_compare_failure_nonempty val2 : forall val1 msg,
  partial_compare repr approx val1 val2 = failure msg -> msg <> "".
Proof.
  unfold failure.
  induction val2 as [| |b|cls n|cls x|cls s|cls items IH|cls items IH
                     |cls items IH] using pyval_ind;
    intros val1 msg; rewrite partial_compare_unfold; cbn [is_Ellipsis];
    try discriminate;
    (case_bool_decide as Ht;
     [intros [= <-]; apply nonempty_app_l; discriminate|]);
    isinstance_known; dispatch;
    try (unfold _partial_compare_eq; destruct (py_eq _ _);
         [discriminate | intros [= <-]; apply not_equal_nonempty]).
  - apply same_type_float in Ht as [x1 ->]. cbn.
    destruct (approx x1 x); [discriminate|].
    intros [= <-]. apply not_equal_nonempty.
  - apply same_type_str in Ht as [s1 ->]. cbn.
    rewrite pattern_match_eq. cbn.
    destruct (Re.match_here _ _ _); [discriminate|].
    intros [= <-]. apply not_equal_nonempty.
  - apply same_type_list in Ht as [items1 ->].
    unfold _partial_compare_list.
    destruct (Nat.ltb (length items1) (length items));
      [intros [= <-]; discriminate|].
    intros H. apply zip_compare_failure in H as (x1 & x2 & Hin & Hx).
    rewrite Forall_forall in IH. exact (IH x2 Hin x1 msg Hx).
  - apply same_type_dict in Ht as [items1 ->].
    intros H.
    apply dict_loop_failure in H as [(k & v & Hin & ->)
                                    |(k & v1 & v2 & Hin & H)].
    + apply nonempty_app_l. discriminate.
    + rewrite Forall_forall in IH. exact (proj2 (IH (k, v2) Hin) v1 msg H).
Qed.

(** X19: against an expected string with no [*] in it, the comparison of
    two strings of one type succeeds exactly when they are the same
    string. *)
Theorem partial_compare_plain_str cls s1 s2 :
  has_star s2 = false ->
  partial_compare repr approx (VStr cls s1) (VStr cls s2) = success
  <-> s1 = s2.
Proof.
  intros Hstar. unfold success. rewrite partial_compare_str. cbn.
  rewrite pattern_match_eq. cbn.
  rewrite <- (glob_matches_no_star s2 s1 Hstar), <- match_here_glob.
  destruct (Re.match_here true (nodes_of_glob s2) s1);
    split; congruence.
Qed.

End PartialCompareMessages.

(** X18 at [[1]] against [[2]]. *)
Lemma partial_compare_failure_nonempty_witness :
  partial_compare type_tag Pytest.approx (py_list [py_int 1])
    (py_list [py_int 2])
  = failure "<int> != <int>"
  /\ "<int> != <int>" <> "".
Proof.
  assert (partial_compare type_tag Pytest.approx (py_list [py_int 1])
            (py_list [py_int 2])
          = failure "<int> != <int>") as H by (vm_compute; reflexivity).
  split; [exact H|].
  exact (partial_compare_failure_nonempty type_tag Pytest.approx _ _ _ H).
Defined.

(** X19 at the string ["hello"]. *)
Lemma partial_compare_plain_str_witness :
  has_star "hello" = false
  /\ forall repr approx,
       partial_compare repr approx (py_str "hello") (py_str "hello")
       = success
       <-> "hello" = "hello".
Proof.
  split; [reflexivity|]. intros repr approx.
  exact (partial_compare_plain_str repr approx None "hello" "hello" eq_refl).
Defined.
